(** * git-sync: a shallow embedding of the sync engine and its poll driver

    The Go program shells out to [git], [ln] and [mv] and touches the
    filesystem through [os] and [path/filepath].  Every such call is an
    [Event]; a Go function becomes a finite tree of events ([Prog]) whose
    continuations receive the values the call returned.  Running a tree
    against an arbitrary environment ([handle]) yields the list of calls
    that were made, with their answers, and the way the function ended. *)

From Stdlib Require Import String Ascii List ZArith Bool Lia DecimalString.
From Stdlib Require Import Floats.PrimFloat Floats.SpecFloat Floats.FloatOps.
Import ListNotations.
Open Scope string_scope.
Open Scope Z_scope.

(* ------------------------------------------------------------------ *)
(** ** Go library functions over strings *)

Module strings.

Definition tab : ascii := "009"%char.
Definition nl : ascii := "010"%char.

(** [" \t\n"], the character set used by [cmdForLog]. *)
Definition blanks : string := String " " (String tab (String nl EmptyString)).

(** [strings.ContainsAny(s, chars)] for single-byte character sets. *)
Fixpoint ContainsAny (s chars : string) : bool :=
  match s with
  | EmptyString => false
  | String c s' =>
      existsb (Ascii.eqb c) (list_ascii_of_string chars) || ContainsAny s' chars
  end.

(** [strings.Join(elems, sep)] *)
Definition Join (elems : list string) (sep : string) : string :=
  String.concat sep elems.

(** [strings.Split(s, sep)] for a one-byte separator.  The result is never
    empty: splitting the empty string yields one empty piece. *)
Fixpoint Split (s : string) (sep : ascii) : list string :=
  match s with
  | EmptyString => [EmptyString]
  | String c s' =>
      if Ascii.eqb c sep then EmptyString :: Split s' sep
      else match Split s' sep with
           | piece :: rest => String c piece :: rest
           | [] => [String c EmptyString]
           end
  end.

(** [strings.HasPrefix(s, prefix)]:
    [len(s) >= len(prefix) && s[0:len(prefix)] == prefix]. *)
Definition HasPrefix (s prefix : string) : bool :=
  (String.length prefix <=? String.length s)%nat
  && String.eqb (String.substring 0 (String.length prefix) s) prefix.

Fixpoint TrimLeft (s : string) (c : ascii) : string :=
  match s with
  | String a s' => if Ascii.eqb a c then TrimLeft s' c else s
  | EmptyString => EmptyString
  end.

Fixpoint TrimRight (s : string) (c : ascii) : string :=
  match s with
  | EmptyString => EmptyString
  | String a s' =>
      match TrimRight s' c with
      | EmptyString => if Ascii.eqb a c then EmptyString else String a EmptyString
      | t => String a t
      end
  end.

(** [strings.Trim(s, cutset)] for a one-byte cutset. *)
Definition Trim (s : string) (c : ascii) : string := TrimRight (TrimLeft s c) c.

End strings.

Module strconv.

(** [strconv.Itoa] *)
Definition Itoa (i : Z) : string := NilEmpty.string_of_int (Z.to_int i).

End strconv.

Module path.

(** One step of [path.Clean] over the ["/"]-separated elements of a path;
    [out] holds the elements kept so far, last one first. *)
Definition cleanElem (rooted : bool) (out : list string) (elem : string) : list string :=
  if (elem =? "")%string then out
  else if (elem =? ".")%string then out
  else if (elem =? "..")%string then
    match out with
    | last :: before =>
        if (last =? "..")%string then (if rooted then out else ".." :: out)
        else before
    | [] => if rooted then [] else [".."]
    end
  else elem :: out.

(** [path.Clean] *)
Definition Clean (p : string) : string :=
  if (p =? "")%string then "."
  else
    let rooted := strings.HasPrefix p "/" in
    let out := fold_left (cleanElem rooted) (strings.Split p "/"%char) [] in
    let body := strings.Join (rev out) "/" in
    if rooted then "/" ++ body
    else if (body =? "")%string then "." else body.

(** [path.Join]: empty elements are dropped, the rest joined by ["/"] and
    cleaned; no element at all gives the empty string. *)
Definition Join (elem : list string) : string :=
  match filter (fun e => negb (e =? "")%string) elem with
  | [] => ""
  | kept => Clean (strings.Join kept "/")
  end.

End path.

(* ------------------------------------------------------------------ *)
(** ** Integers and durations *)

Definition wrap64 (z : Z) : Z := (z + 2 ^ 63) mod 2 ^ 64 - 2 ^ 63.

(** Go's [int] on 64-bit platforms: addition wraps around. *)
Definition int_add (a b : Z) : Z := wrap64 (a + b).
Definition int_mul (a b : Z) : Z := wrap64 (a * b).

(** Conversion [int(f)] of a finite [float64]: truncation towards zero.
    Go leaves the result unspecified when the value does not fit; the
    model wraps it. *)
Definition float_to_int (f : float) : Z :=
  match Prim2SF f with
  | S754_finite negative m e =>
      let magnitude := if 0 <=? e then Z.pos m * 2 ^ e else Z.pos m / 2 ^ (- e) in
      wrap64 (if negative then - magnitude else magnitude)
  | _ => 0
  end.

(** [time.Millisecond], in nanoseconds. *)
Definition Millisecond : Z := 1000000.

(** [waitTime]: [time.Duration(int(seconds*1000)) * time.Millisecond] *)
Definition waitTime (seconds : float) : Z :=
  int_mul (float_to_int (PrimFloat.mul seconds 1000%float)) Millisecond.

(* ------------------------------------------------------------------ *)
(** ** Errors, events and programs *)

(** A Go [error] value.  [SysError] comes from the operating system or from
    a child process ([notExist] is what [os.IsNotExist] reports for it);
    [Errorf] is an error built by [fmt.Errorf], kept as its format string
    and arguments. *)
Inductive error : Type :=
| SysError (notExist : bool) (msg : string)
| Errorf (format : string) (args : list fmtArg)
with fmtArg : Type :=
| StrArg (s : string)
| ErrArg (e : error)
| DurArg (nanoseconds : Z)
| ArgvArg (argv : list string).

(** [os.IsNotExist(err)]; [None] is the nil error. *)
Definition os_IsNotExist (err : option error) : bool :=
  match err with
  | Some (SysError true _) => true
  | _ => false
  end.

Inductive Signal : Type := Interrupt | Kill.

(** Calls that leave the program. *)
Inductive Event : Type :=
| Stat (name : string)                                     (* os.Stat *)
| EvalSymlinks (name : string)                             (* filepath.EvalSymlinks *)
| RemoveAll (name : string)                                (* os.RemoveAll *)
| WriteFile (name : string) (data : string) (perm : Z)     (* ioutil.WriteFile *)
| CombinedOutput (dir command : string) (args : list string)
                                  (* exec.Command(command, args...) run in dir *)
| Infof (v : Z) (format : string) (args : list fmtArg)     (* log.V(v).Infof *)
| Errorf_log (format : string) (args : list fmtArg)        (* log.Errorf *)
| Sleep (nanoseconds : Z)                                  (* time.Sleep *)
| AwaitSignal (sigs : list Signal).          (* signal.Notify(c, sigs...); <-c *)

(** What a call hands back: a string result (empty where Go has none) and
    an error ([None] for nil). *)
Definition Answer : Type := (string * option error)%type.

(** A Go function body: it returns, ends the process ([os.Exit]), or makes
    a call and goes on with its answer. *)
Inductive Prog (A : Type) : Type :=
| Ret (a : A)
| Exit (code : Z)
| Vis (e : Event) (k : Answer -> Prog A).

Arguments Ret {A} a.
Arguments Exit {A} code.
Arguments Vis {A} e k.

Fixpoint bind {A B : Type} (p : Prog A) (f : A -> Prog B) : Prog B :=
  match p with
  | Ret a => f a
  | Exit code => Exit code
  | Vis e k => Vis e (fun ans => bind (k ans) f)
  end.

Definition call (e : Event) : Prog Answer := Vis e Ret.

Declare Scope prog_scope.
Delimit Scope prog_scope with prog.
Notation "x <- p ;; q" := (bind p (fun x => q))
  (at level 61, p at next level, right associativity) : prog_scope.
Notation "p ;; q" := (bind p (fun _ => q))
  (at level 61, right associativity) : prog_scope.
Open Scope prog_scope.

(** How a run ended. *)
Inductive Outcome (A : Type) : Type :=
| Returned (a : A)
| Exited (code : Z).

Arguments Returned {A} a.
Arguments Exited {A} code.

Definition Trace : Type := list (Event * Answer).

(** Functions of Go's library whose results the program only passes on. *)
Record GoLib : Type := {
  (** [fmt.Sprintf("%q", s)] *)
  Quote : string -> string;
  (** [filepath.Rel(basepath, targpath)] *)
  Rel : string -> string -> string * option error
}.

Section Run.

(** The environment: a state and the answer it gives to each call. *)
Variable World : Type.
Variable handle : Event -> World -> Answer * World.

Fixpoint run {A : Type} (p : Prog A) (w : World) : Trace * Outcome A * World :=
  match p with
  | Ret a => ([], Returned a, w)
  | Exit code => ([], Exited code, w)
  | Vis e k =>
      let (ans, w1) := handle e w in
      let '(tr, out, w2) := run (k ans) w1 in
      ((e, ans) :: tr, out, w2)
  end.

Definition trace_of {A : Type} (p : Prog A) (w : World) : Trace := fst (fst (run p w)).
Definition outcome_of {A : Type} (p : Prog A) (w : World) : Outcome A := snd (fst (run p w)).
Definition world_after {A : Type} (p : Prog A) (w : World) : World := snd (run p w).

End Run.

Arguments run {World} handle {A} p w.
Arguments trace_of {World} handle {A} p w.
Arguments outcome_of {World} handle {A} p w.
Arguments world_after {World} handle {A} p w.

(** The calls of a trace, without their answers. *)
Definition events (tr : Trace) : list Event := map fst tr.

(* ------------------------------------------------------------------ *)
(** ** The program *)

(** [SyncOption] (the fields of the Go struct, in its order). *)
Record SyncOption : Type := {
  Username : string;
  Password : string;
  SSH : bool;
  Repo : string;
  Branch : string;
  Rev : string;
  Depth : Z;
  Root : string;
  Dest : string;
  Wait : float;
  OneTime : bool;
  MaxSyncFailures : Z;
  Chmod : Z
}.

Section Engine.

Variable lib : GoLib.

(** [cmdForLog].  The Go function rewrites [args] in place, and its caller
    passes its own slice ([args...]): the second component is that slice
    as the caller finds it afterwards. *)
Definition cmdForLog (command : string) (args : list string) : string * list string :=
  let command :=
    if strings.ContainsAny command strings.blanks then Quote lib command else command in
  let args :=
    map (fun a => if strings.ContainsAny a strings.blanks then Quote lib a else a) args in
  (command ++ " " ++ strings.Join args " ", args).

(** [runCommand] *)
Definition runCommand (cwd command : string) (args : list string)
  : Prog (string * option error) :=
  let logged := cmdForLog command args in
  call (Infof 5 "run(%q): %s" [StrArg cwd; StrArg (fst logged)]) ;;
  (* from here on args is the slice as cmdForLog left it *)
  let args := snd logged in
  r <- call (CombinedOutput cwd command args) ;;
  match snd r with
  | Some err =>
      Ret ("", Some (Errorf "error running command: %v: %q" [ErrArg err; StrArg (fst r)]))
  | None => Ret (fst r, None)
  end.

(** [updateSymlink] atomically swaps the symlink to point at the specified
    directory and cleans up the previous worktree. *)
Definition updateSymlink (gitRoot link newDir : string) : Prog (option error) :=
  r <- call (EvalSymlinks (path.Join [gitRoot; link])) ;;
  let currentDir := fst r in
  let publish : Prog (option error) :=
    let (newDirRelative, err) := Rel lib gitRoot newDir in
    match err with
    | Some err => Ret (Some (Errorf "error converting to relative path: %v" [ErrArg err]))
    | None =>
        r <- runCommand gitRoot "ln" ["-snf"; newDirRelative; "tmp-link"] ;;
        match snd r with
        | Some err => Ret (Some (Errorf "error creating symlink: %v" [ErrArg err]))
        | None =>
            call (Infof 1 "created symlink %s -> %s"
                    [StrArg "tmp-link"; StrArg newDirRelative]) ;;
            r <- runCommand gitRoot "mv" ["-T"; "tmp-link"; link] ;;
            match snd r with
            | Some err => Ret (Some (Errorf "error replacing symlink: %v" [ErrArg err]))
            | None =>
                call (Infof 1 "renamed symlink %s to %s" [StrArg "tmp-link"; StrArg link]) ;;
                (* Clean up previous worktree *)
                if (0 <? String.length currentDir)%nat then
                  r <- call (RemoveAll currentDir) ;;
                  match snd r with
                  | Some err =>
                      Ret (Some (Errorf "error removing directory: %v" [ErrArg err]))
                  | None =>
                      call (Infof 1 "removed %s" [StrArg currentDir]) ;;
                      r <- runCommand gitRoot "git" ["worktree"; "prune"] ;;
                      match snd r with
                      | Some err => Ret (Some err)
                      | None =>
                          call (Infof 1 "pruned old worktrees" []) ;;
                          Ret None
                      end
                  end
                else Ret None
            end
        end
    end in
  match snd r with
  | Some err =>
      if negb (os_IsNotExist (Some err))
      then Ret (Some (Errorf "error accessing symlink: %v" [ErrArg err]))
      else publish
  | None => publish
  end.

(** [remoteHashForRef] *)
Definition remoteHashForRef (ref gitRoot : string) : Prog (string * option error) :=
  r <- runCommand gitRoot "git" ["ls-remote"; "-q"; "origin"; ref] ;;
  match snd r with
  | Some err => Ret ("", Some err)
  | None =>
      let parts := strings.Split (fst r) strings.tab in
      Ret (nth 0 parts "", None)
  end.

(** [cloneRepo] *)
Definition cloneRepo (o : SyncOption) : Prog (option error) :=
  let args := ["clone"; "--no-checkout"; "-b"; Branch o] in
  let args := if negb (Depth o =? 0) then (args ++ ["--depth"; strconv.Itoa (Depth o)])%list
              else args in
  let args := (args ++ [Repo o; Root o])%list in
  r <- runCommand "" "git" args ;;
  match snd r with
  | Some err => Ret (Some err)
  | None =>
      call (Infof 0 "cloned %s" [StrArg (Repo o)]) ;;
      Ret None
  end.

(** [hashForRev] *)
Definition hashForRev (o : SyncOption) (rev : string) : Prog (string * option error) :=
  r <- runCommand (Root o) "git" ["rev-list"; "-n1"; rev] ;;
  match snd r with
  | Some err => Ret ("", Some err)
  | None => Ret (strings.Trim (fst r) strings.nl, None)
  end.

(** [revIsHash] *)
Definition revIsHash (o : SyncOption) (rev : string) : Prog (bool * option error) :=
  r <- hashForRev o rev ;;
  match snd r with
  | Some err => Ret (false, Some err)
  | None => Ret (strings.HasPrefix (fst r) rev, None)
  end.

(** [getRevs] returns the local and upstream hashes for rev. *)
Definition getRevs (o : SyncOption) (rev : string)
  : Prog (string * string * option error) :=
  (* Ask git what the exact hash is for rev. *)
  r <- hashForRev o rev ;;
  let local := fst r in
  match snd r with
  | Some err => Ret ("", "", Some err)
  | None =>
      (* Build a ref string, depending on whether the user asked to track
         HEAD or a tag. *)
      let ref := if (Rev o =? "HEAD")%string
                 then "refs/heads/" ++ Branch o
                 else "refs/tags/" ++ Rev o ++ "^{}" in
      (* Figure out what hash the remote resolves ref to. *)
      r <- remoteHashForRef ref (Root o) ;;
      let remote := fst r in
      match snd r with
      | Some err => Ret ("", "", Some err)
      | None => Ret (local, remote, None)
      end
  end.

(** [addWorktreeAndSwap] creates a new worktree and calls [updateSymlink]
    to swap the symlink to point to the new worktree. *)
Definition addWorktreeAndSwap (o : SyncOption) (hash : string) : Prog (option error) :=
  call (Infof 0 "syncing to %s (%s)" [StrArg (Rev o); StrArg hash]) ;;
  (* Update from the remote. *)
  r <- runCommand (Root o) "git" ["fetch"; "--tags"; "origin"; Branch o] ;;
  match snd r with
  | Some err => Ret (Some err)
  | None =>
      (* Make a worktree for this exact git hash. *)
      let worktreePath := path.Join [Root o; "rev-" ++ hash] in
      r <- runCommand (Root o) "git"
             ["worktree"; "add"; worktreePath; "origin/" ++ Branch o] ;;
      match snd r with
      | Some err => Ret (Some err)
      | None =>
          call (Infof 0 "added worktree %s for origin/%s"
                  [StrArg worktreePath; StrArg (Branch o)]) ;;
          let (worktreePathRelative, err) := Rel lib (Root o) worktreePath in
          match err with
          | Some err => Ret (Some err)
          | None =>
              let gitDirRef :=
                path.Join ["gitdir: ../.git/worktrees"; worktreePathRelative]
                ++ String strings.nl EmptyString in
              r <- call (WriteFile (path.Join [worktreePath; ".git"]) gitDirRef 420) ;;
              match snd r with
              | Some err => Ret (Some err)
              | None =>
                  (* Reset the worktree's working copy to the specific rev. *)
                  r <- runCommand worktreePath "git" ["reset"; "--hard"; hash] ;;
                  match snd r with
                  | Some err => Ret (Some err)
                  | None =>
                      call (Infof 0 "reset worktree %s to %s"
                              [StrArg worktreePath; StrArg hash]) ;;
                      let publish := updateSymlink (Root o) (Dest o) worktreePath in
                      if negb (Chmod o =? 0) then
                        (* set file permissions *)
                        r <- runCommand "" "chmod"
                               ["-R"; strconv.Itoa (Chmod o); worktreePath] ;;
                        match snd r with
                        | Some err => Ret (Some err)
                        | None => publish
                        end
                      else publish
                  end
              end
          end
      end
  end.

(** [sync] *)
Definition sync (o : SyncOption) : Prog (option error) :=
  let target := path.Join [Repo o; Dest o] in
  let gitRepoPath := path.Join [target; ".git"] in
  r <- call (Stat gitRepoPath) ;;
  let err := snd r in
  if os_IsNotExist err then
    err <- cloneRepo o ;;
    match err with
    | Some err => Ret (Some err)
    | None =>
        r <- hashForRev o (Rev o) ;;
        match snd r with
        | Some err => Ret (Some err)
        | None => addWorktreeAndSwap o (fst r)
        end
    end
  else
    match err with
    | Some err =>
        Ret (Some (Errorf "error checking if repo exists %q: %v"
                     [StrArg gitRepoPath; ErrArg err]))
    | None =>
        r <- getRevs o (Rev o) ;;
        let '(local, remote, err) := r in
        match err with
        | Some err => Ret (Some err)
        | None =>
            call (Infof 2 "local hash:  %s" [StrArg local]) ;;
            call (Infof 2 "remote hash: %s" [StrArg remote]) ;;
            if negb (local =? remote)%string then
              call (Infof 0 "update required" []) ;;
              addWorktreeAndSwap o remote
            else
              call (Infof 1 "no update required" []) ;;
              Ret None
        end
    end.

(** [sleepForever]: do no work until a signal arrives, then [os.Exit(0)]. *)
Definition sleepForever {A : Type} : Prog A :=
  call (AwaitSignal [Interrupt; Kill]) ;;
  Exit 0.

(** The two variables of [main]'s loop. *)
Record LoopState : Type := {
  initialSync : bool;
  failCount : Z
}.

(** One turn of the [for] loop of [main]; it returns the variables as the
    next turn finds them. *)
Definition mainIteration (o : SyncOption) (st : LoopState) : Prog LoopState :=
  err <- sync o ;;
  match err with
  | Some err =>
      if initialSync st || (MaxSyncFailures o <=? failCount st) then
        call (Errorf_log "error syncing repo: %v" [ErrArg err]) ;;
        Exit 1
      else
        let failCount := int_add (failCount st) 1 in
        call (Errorf_log "unexpected error syncing repo: %v" [ErrArg err]) ;;
        call (Infof 0 "waiting %v before retrying" [DurArg (waitTime (Wait o))]) ;;
        call (Sleep (waitTime (Wait o))) ;;
        Ret {| initialSync := initialSync st; failCount := failCount |}
  | None =>
      initialSync <-
        (if initialSync st then
           r <- revIsHash o (Rev o) ;;
           let (isHash, err) := r in
           match err with
           | Some _ =>
               call (Errorf_log "can't tell if rev %s is a git hash, exiting"
                       [StrArg (Rev o)]) ;;
               Exit 1
           | None =>
               (if isHash then
                  call (Infof 0 "rev %s appears to be a git hash, no further sync needed"
                          [StrArg (Rev o)]) ;;
                  sleepForever
                else Ret tt) ;;
               if OneTime o then Exit 0 else Ret false
           end
         else Ret (initialSync st)) ;;
      let failCount := 0 in
      call (Infof 1 "next sync in %v" [DurArg (waitTime (Wait o))]) ;;
      call (Sleep (waitTime (Wait o))) ;;
      Ret {| initialSync := initialSync; failCount := failCount |}
  end.

(** The loop of [main], cut after [n] turns. *)
Fixpoint mainLoop (n : nat) (o : SyncOption) (st : LoopState) : Prog LoopState :=
  match n with
  | O => Ret st
  | S n => st <- mainIteration o st ;; mainLoop n o st
  end.

(** [main] once [setupFlags] has filled [cliOpts]; [argv] is [os.Args]. *)
Definition main (n : nat) (argv : list string) (cliOpts : SyncOption) : Prog LoopState :=
  call (Infof 0 "starting up: %q" [ArgvArg argv]) ;;
  mainLoop n cliOpts {| initialSync := true; failCount := 0 |}.

End Engine.

(* ------------------------------------------------------------------ *)
(** ** Start-up: what [setupFlags] does once the flags are parsed

    The calls made here (standard error, [exec.LookPath], the standard input
    of a child process, file modes, the process environment) are not those
    of the engine, so this part has its own calls and programs. *)

Module Setup.

(** Go errors and the values formatted into messages. *)
Inductive error : Type :=
| SysError (msg : string)
| Errorf (format : string) (args : list arg)
with arg : Type :=
| Str (s : string)
| Err (e : error)
| Mode (m : Z).

Inductive Call : Type :=
| Stderr (format : string) (args : list arg)       (* fmt.Fprintf(os.Stderr, ...) *)
| Usage                                            (* flag.Usage() *)
| LookPath (file : string)                         (* exec.LookPath *)
| Infof (v : Z) (format : string)                  (* log.V(v).Infof, no argument *)
| CombinedOutput (command : string) (args : list string)
                                  (* exec.Command(...).CombinedOutput() *)
| StdinPipe (command : string) (args : list string)  (* cmd.StdinPipe() *)
| Copy (data : string)                             (* io.Copy(stdin, ...) *)
| Close                                            (* stdin.Close() *)
| Stat (name : string)                             (* os.Stat, then Mode() *)
| Setenv (key value : string).                     (* os.Setenv *)

(** What a call hands back: output, file mode, error. *)
Record Reply : Type := {
  output : string;
  mode : Z;
  failure : option error
}.

Inductive Prog (A : Type) : Type :=
| Ret (a : A)
| Exit (code : Z)
| Do (c : Call) (k : Reply -> Prog A).

Arguments Ret {A} a.
Arguments Exit {A} code.
Arguments Do {A} c k.

Fixpoint bind {A B : Type} (p : Prog A) (f : A -> Prog B) : Prog B :=
  match p with
  | Ret a => f a
  | Exit code => Exit code
  | Do c k => Do c (fun r => bind (k r) f)
  end.

Definition call (c : Call) : Prog Reply := Do c Ret.

Declare Scope setup_scope.
Delimit Scope setup_scope with setup.
Notation "x <- p ;; q" := (bind p (fun x => q))
  (at level 61, p at next level, right associativity) : setup_scope.
Notation "p ;; q" := (bind p (fun _ => q))
  (at level 61, right associativity) : setup_scope.

Section Run.

Variable World : Type.
Variable handle : Call -> World -> Reply * World.

Fixpoint run {A : Type} (p : Prog A) (w : World) : list (Call * Reply) * Outcome A * World :=
  match p with
  | Ret a => ([], Returned a, w)
  | Exit code => ([], Exited code, w)
  | Do c k =>
      let (r, w1) := handle c w in
      let '(tr, out, w2) := run (k r) w1 in
      ((c, r) :: tr, out, w2)
  end.

End Run.

Arguments run {World} handle {A} p w.

(** [strings.Contains(s, sep)] for a one-byte [sep]. *)
Fixpoint Contains (s : string) (sep : ascii) : bool :=
  match s with
  | EmptyString => false
  | String c s' => Ascii.eqb c sep || Contains s' sep
  end.

Local Open Scope setup_scope.

(** [setupGitAuth] *)
Definition setupGitAuth (username password gitURL : string) : Prog (option error) :=
  call (Infof 1 "setting up the git credential cache") ;;
  r <- call (CombinedOutput "git" ["config"; "--global"; "credential.helper"; "cache"]) ;;
  match failure r with
  | Some err =>
      Ret (Some (Errorf "error setting up git credentials %v: %s" [Err err; Str (output r)]))
  | None =>
      r <- call (StdinPipe "git" ["credential"; "approve"]) ;;
      match failure r with
      | Some err => Ret (Some err)
      | None =>
          let nl := String strings.nl EmptyString in
          let creds := "url=" ++ gitURL ++ nl ++ "username=" ++ username ++ nl
                       ++ "password=" ++ password ++ nl in
          call (Copy creds) ;;
          call Close ;;
          r <- call (CombinedOutput "git" ["credential"; "approve"]) ;;
          match failure r with
          | Some err =>
              Ret (Some (Errorf "error setting up git credentials %v: %s"
                           [Err err; Str (output r)]))
          | None => Ret None
          end
      end
  end.

(** [setupGitSSH] *)
Definition setupGitSSH : Prog (option error) :=
  call (Infof 1 "setting up git SSH credentials") ;;
  let pathToSSHSecret := "/etc/git-secret/ssh" in
  fileInfo <- call (Stat pathToSSHSecret) ;;
  match failure fileInfo with
  | Some err => Ret (Some (Errorf "error: could not find SSH key Secret: %v" [Err err]))
  | None =>
      if negb (mode fileInfo =? 256) then
        Ret (Some (Errorf "Permissions %s for SSH key are too open. It is recommended to mount secret volume with `defaultMode: 256` (decimal number for octal 0400)."
                     [Mode (mode fileInfo)]))
      else
        (* set env variable GIT_SSH_COMMAND to force git use customized ssh command *)
        r <- call (Setenv "GIT_SSH_COMMAND"
                     ("ssh -q -o UserKnownHostsFile=/dev/null -o StrictHostKeyChecking=no -i "
                      ++ pathToSSHSecret)) ;;
        match failure r with
        | Some err =>
            Ret (Some (Errorf "Failed to set the GIT_SSH_COMMAND env var: %v" [Err err]))
        | None => Ret None
        end
  end.

(** [setupFlags], from the return of [flag.Parse] on: [cliOpts] holds what
    the flags and the environment gave, and the function returns it as it
    leaves it. *)
Definition setupFlags (cliOpts : SyncOption) : Prog SyncOption :=
  let nl := String strings.nl EmptyString in
  (if (Repo cliOpts =? "")%string then
     call (Stderr ("ERROR: --repo or $GIT_SYNC_REPO must be provided" ++ nl) []) ;;
     call Usage ;;
     Exit 1
   else Ret tt) ;;
  let cliOpts :=
    if (Dest cliOpts =? "")%string then
      let parts := strings.Split (strings.Trim (Repo cliOpts) "/"%char) "/"%char in
      {| Username := Username cliOpts; Password := Password cliOpts; SSH := SSH cliOpts;
         Repo := Repo cliOpts; Branch := Branch cliOpts; Rev := Rev cliOpts;
         Depth := Depth cliOpts; Root := Root cliOpts;
         Dest := nth (List.length parts - 1) parts "";
         Wait := Wait cliOpts; OneTime := OneTime cliOpts;
         MaxSyncFailures := MaxSyncFailures cliOpts; Chmod := Chmod cliOpts |}
    else cliOpts in
  (if Contains (Dest cliOpts) "/"%char then
     call (Stderr ("ERROR: --dest must be a bare name" ++ nl) []) ;;
     call Usage ;;
     Exit 1
   else Ret tt) ;;
  r <- call (LookPath "git") ;;
  match failure r with
  | Some err =>
      call (Stderr ("ERROR: git executable not found: %v" ++ nl) [Err err]) ;;
      Exit 1
  | None =>
      (if negb (Username cliOpts =? "")%string && negb (Password cliOpts =? "")%string then
         err <- setupGitAuth (Username cliOpts) (Password cliOpts) (Repo cliOpts) ;;
         match err with
         | Some err =>
             call (Stderr ("ERROR: can't create .netrc file: %v" ++ nl) [Err err]) ;;
             Exit 1
         | None => Ret tt
         end
       else Ret tt) ;;
      (if SSH cliOpts then
         err <- setupGitSSH ;;
         match err with
         | Some err =>
             call (Stderr ("ERROR: can't configure SSH: %v" ++ nl) [Err err]) ;;
             Exit 1
         | None => Ret tt
         end
       else Ret tt) ;;
      Ret cliOpts
  end.

End Setup.

Arguments path.Join : simpl never.
Arguments path.Clean : simpl never.
Arguments strings.Split : simpl never.
Arguments strings.Trim : simpl never.
Arguments strings.HasPrefix : simpl never.
Arguments waitTime : simpl never.
Arguments int_add : simpl never.

(* ------------------------------------------------------------------ *)
(** ** Vocabulary of the statements *)

(** Logging, sleeping and waiting for a signal: calls whose answer the
    program ignores. *)
Definition is_quiet (e : Event) : bool :=
  match e with
  | Infof _ _ _ | Errorf_log _ _ | Sleep _ | AwaitSignal _ => true
  | _ => false
  end.

(** Logging and sleeping only. *)
Definition is_log_or_sleep (e : Event) : bool :=
  match e with
  | Infof _ _ _ | Errorf_log _ _ | Sleep _ => true
  | _ => false
  end.

(** The other calls of a trace, with their answers. *)
Definition loud (tr : Trace) : Trace := filter (fun x => negb (is_quiet (fst x))) tr.

(** The value [runCommand] returns, from the answer of the child process. *)
Definition commandResult (ans : Answer) : string * option error :=
  match snd ans with
  | Some err => ("", Some (Errorf "error running command: %v: %q" [ErrArg err; StrArg (fst ans)]))
  | None => (fst ans, None)
  end.

(** Every [Q]-entry of a list comes after some [P]-entry. *)
Fixpoint precededBy {X : Type} (P Q : X -> Prop) (seen rest : list X) : Prop :=
  match rest with
  | [] => True
  | x :: rest' =>
      (Q x -> exists y, In y seen /\ P y) /\ precededBy P Q (seen ++ [x])%list rest'
  end.

Section Vocabulary.

Variable lib : GoLib.

(** The arguments [runCommand] hands to [exec.Command]: the caller's slice
    after [cmdForLog] went over it. *)
Definition execArgs (command : string) (args : list string) : list string :=
  snd (cmdForLog lib command args).

(** The child process [remoteHashForRef] starts. *)
Definition lsRemote (ref gitRoot : string) : Event :=
  CombinedOutput gitRoot "git" (execArgs "git" ["ls-remote"; "-q"; "origin"; ref]).

(** The child process [hashForRev] starts. *)
Definition revList (gitRoot rev : string) : Event :=
  CombinedOutput gitRoot "git" (execArgs "git" ["rev-list"; "-n1"; rev]).

(** The child process [cloneRepo] starts for a full clone. *)
Definition cloneEvent (o : SyncOption) : Event :=
  CombinedOutput "" "git"
    (execArgs "git" ["clone"; "--no-checkout"; "-b"; Branch o; Repo o; Root o]).

(** The calls of the publish protocol and the cleanup calls. *)
Definition recordEvent (gitRoot link : string) : Event :=
  EvalSymlinks (path.Join [gitRoot; link]).
Definition linkEvent (gitRoot target : string) : Event :=
  CombinedOutput gitRoot "ln" (execArgs "ln" ["-snf"; target; "tmp-link"]).
Definition renameEvent (gitRoot link : string) : Event :=
  CombinedOutput gitRoot "mv" (execArgs "mv" ["-T"; "tmp-link"; link]).
Definition pruneEvent (gitRoot : string) : Event :=
  CombinedOutput gitRoot "git" (execArgs "git" ["worktree"; "prune"]).

(** Deleting a directory, or pruning worktree metadata. *)
Definition isCleanup (gitRoot : string) (x : Event * Answer) : Prop :=
  (exists dir, fst x = RemoveAll dir) \/ fst x = pruneEvent gitRoot.

(** The rename onto the pointer, answered without an error. *)
Definition renamed (gitRoot link : string) (x : Event * Answer) : Prop :=
  fst x = renameEvent gitRoot link /\ snd (snd x) = None.

(** One of the first three steps of the protocol went wrong: the previous
    target could not be read (its absence is not a failure), the temporary
    link could not be created, or the rename failed. *)
Definition publishStepFailed (gitRoot link : string) (x : Event * Answer) : Prop :=
  (fst x = recordEvent gitRoot link
   /\ snd (snd x) <> None /\ os_IsNotExist (snd (snd x)) = false)
  \/ ((exists target, fst x = linkEvent gitRoot target) /\ snd (snd x) <> None)
  \/ (fst x = renameEvent gitRoot link /\ snd (snd x) <> None).

End Vocabulary.

Arguments commandResult ans : simpl never.
Arguments execArgs lib command args : simpl never.

(* ------------------------------------------------------------------ *)
(** ** Further vocabulary *)

(** No character of [s] is [c]. *)
Definition free_of (c : ascii) (s : string) : Prop :=
  forall a b, s <> a ++ String c b.

(** A program that never ends the process and makes only calls allowed by
    [P], whatever answers it gets. *)
Fixpoint confined {A : Type} (P : Event -> Prop) (p : Prog A) : Prop :=
  match p with
  | Ret _ => True
  | Exit _ => False
  | Vis e k => P e /\ forall ans, confined P (k ans)
  end.


(** [s] begins, or ends, with the character [c]. *)
Definition starts_with (c : ascii) (s : string) : Prop := exists t, s = String c t.
Definition ends_with (c : ascii) (s : string) : Prop := exists t, s = t ++ String c "".


(** The calls a pass of the engine may make: anything but sleeping, waiting
    for a signal and logging an error, which are [main]'s. *)
Definition engineCall (e : Event) : Prop :=
  match e with
  | Sleep _ | AwaitSignal _ | Errorf_log _ _ => False
  | _ => True
  end.

(** A [git clone]. *)
Definition isClone (e : Event) : Prop :=
  match e with
  | CombinedOutput _ "git" ("clone" :: _) => True
  | _ => False
  end.


(** A call that reads or changes what is published: resolving the pointer,
    [ln], [mv], or the removal of a directory. *)
Definition touchesPublished (e : Event) : Prop :=
  match e with
  | EvalSymlinks _ | RemoveAll _ => True
  | CombinedOutput _ command _ => command = "ln" \/ command = "mv"
  | _ => False
  end.

Section Building.

Variable lib : GoLib.

(** The steps of [addWorktreeAndSwap] that build the worktree for [hash]. *)
Definition worktreeOf (o : SyncOption) (hash : string) : string :=
  path.Join [Root o; "rev-" ++ hash].
Definition fetchEvent (o : SyncOption) : Event :=
  CombinedOutput (Root o) "git" (execArgs lib "git" ["fetch"; "--tags"; "origin"; Branch o]).
Definition worktreeAddEvent (o : SyncOption) (hash : string) : Event :=
  CombinedOutput (Root o) "git"
    (execArgs lib "git" ["worktree"; "add"; worktreeOf o hash; "origin/" ++ Branch o]).
Definition resetEvent (o : SyncOption) (hash : string) : Event :=
  CombinedOutput (worktreeOf o hash) "git" (execArgs lib "git" ["reset"; "--hard"; hash]).
Definition chmodEvent (o : SyncOption) (hash : string) : Event :=
  CombinedOutput "" "chmod"
    (execArgs lib "chmod" ["-R"; strconv.Itoa (Chmod o); worktreeOf o hash]).

(** All of them were made and answered without error in [tr]; the [chmod]
    only counts when a mode is configured. *)
Definition built (o : SyncOption) (hash : string) (tr : Trace) : Prop :=
  (exists out, In (fetchEvent o, (out, None)) tr)
  /\ (exists out, In (worktreeAddEvent o hash, (out, None)) tr)
  /\ (exists data out,
        In (WriteFile (path.Join [worktreeOf o hash; ".git"]) data 420, (out, None)) tr)
  /\ (exists out, In (resetEvent o hash, (out, None)) tr)
  /\ (Chmod o <> 0 -> exists out, In (chmodEvent o hash, (out, None)) tr).

End Building.


(** [cliOpts] with another published name. *)
Definition withDest (o : SyncOption) (dest : string) : SyncOption :=
  {| Username := Username o; Password := Password o; SSH := SSH o;
     Repo := Repo o; Branch := Branch o; Rev := Rev o; Depth := Depth o; Root := Root o;
     Dest := dest;
     Wait := Wait o; OneTime := OneTime o;
     MaxSyncFailures := MaxSyncFailures o; Chmod := Chmod o |}.

(** Every character of [s] is [c]. *)
Fixpoint only (c : ascii) (s : string) : Prop :=
  match s with
  | EmptyString => True
  | String a s' => a = c /\ only c s'
  end.

(** Calls of the start-up whose failure [setupGitAuth] does not look at. *)
Definition unchecked (c : Setup.Call) : Prop :=
  match c with
  | Setup.Infof _ _ | Setup.Copy _ | Setup.Close => True
  | _ => False
  end.

(** The call creates or replaces the symbolic link [name] of the directory
    [dir]: [ln -snf <target> <name>] run there. *)
Definition makesLink (dir name : string) (e : Event) : Prop :=
  exists target, e = CombinedOutput dir "ln" ["-snf"; target; name].

(** [mv -T tmp-link <link>] run in [gitRoot] with the pointer's own name as
    its last operand, and answered without an error. *)
Definition renamedOnto (gitRoot link : string) (x : Event * Answer) : Prop :=
  fst x = CombinedOutput gitRoot "mv" ["-T"; "tmp-link"; link] /\ snd (snd x) = None.


(* ------------------------------------------------------------------ *)
(** ** Sample environments

    Closed statements below are evaluated in these. *)

(** A [GoLib] for paths and arguments of plain ASCII: [Quote] only adds the
    surrounding quotes (exact when nothing needs escaping), and [Rel] answers
    for a target that lies under the base directory, the only case the
    examples use, and refuses any other. *)
Definition sampleLib : GoLib := {|
  Quote := fun s => String "034"%char (s ++ String "034"%char EmptyString);
  Rel := fun basepath targpath =>
    let base := path.Clean basepath in
    let targ := path.Clean targpath in
    if (targ =? base)%string then (".", None)
    else if strings.HasPrefix targ (base ++ "/")
    then (String.substring (String.length base + 1)
            (String.length targ - (String.length base + 1)) targ, None)
    else ("", Some (SysError false "Rel: can't make path relative"))
|}.

(** The configuration used in the examples. *)
Definition sampleOption : SyncOption := {|
  Username := ""; Password := ""; SSH := false;
  Repo := "https://example.com/r.git"; Branch := "master"; Rev := "HEAD"; Depth := 0;
  Root := "/git"; Dest := "app";
  Wait := 1%float; OneTime := false; MaxSyncFailures := 3; Chmod := 0
|}.

(** A scripted environment: its state is the list of answers still to be
    given to the calls that can fail, in order.  Once the script is used up
    every further call fails. *)
Definition scripted (e : Event) (script : list Answer) : Answer * list Answer :=
  if is_quiet e then (("", None), script)
  else match script with
       | ans :: rest => (ans, rest)
       | [] => (("", Some (SysError false "script exhausted")), [])
       end.

(** Answers of a script. *)
Definition ok (output : string) : Answer := (output, None).
Definition failed (output msg : string) : Answer := (output, Some (SysError false msg)).
Definition notExist (msg : string) : Answer := ("", Some (SysError true msg)).

(** A disk reduced to the names that exist on it and to its symbolic links
    (name and the directory it resolves to), in front of a remote whose
    branch head stays at [remoteHead].  [git clone] refuses a destination
    that exists, as git does for a directory that is not empty; the other
    commands succeed. *)
Record Disk : Type := {
  entries : list string;
  links : list (string * string)
}.

Definition remoteHead : string := "9f3c".

Definition onDisk (e : Event) (d : Disk) : Answer * Disk :=
  let present name :=
    existsb (String.eqb name) (entries d) || existsb (String.eqb name) (map fst (links d)) in
  let missing call name := notExist (call ++ " " ++ name ++ ": no such file or directory") in
  let line s := s ++ String strings.nl EmptyString in
  match e with
  | Stat name => (if present name then ok "" else missing "stat" name, d)
  | EvalSymlinks name =>
      (match find (fun l => String.eqb name (fst l)) (links d) with
       | Some l => ok (snd l)
       | None => if present name then ok name else missing "lstat" name
       end, d)
  | RemoveAll name =>
      (ok "", {| entries := filter (fun n => negb (String.eqb n name
                                                   || strings.HasPrefix n (name ++ "/")))
                              (entries d);
                 links := links d |})
  | WriteFile name _ _ => (ok "", {| entries := name :: entries d; links := links d |})
  | CombinedOutput dir "git" ("clone" :: args) =>
      let dest := last args "" in
      if present dest
      then (failed (line ("fatal: destination path '" ++ dest
                          ++ "' already exists and is not an empty directory."))
              "exit status 128", d)
      else (ok "", {| entries := dest :: path.Join [dest; ".git"] :: entries d;
                      links := links d |})
  | CombinedOutput _ "git" ["rev-list"; "-n1"; _] => (ok (line remoteHead), d)
  | CombinedOutput _ "git" ["ls-remote"; "-q"; "origin"; ref] =>
      (ok (line (remoteHead ++ String strings.tab ref)), d)
  | CombinedOutput _ "git" ["worktree"; "add"; name; _] =>
      (ok "", {| entries := name :: entries d; links := links d |})
  | CombinedOutput dir "ln" ["-snf"; target; name] =>
      (ok "", {| entries := entries d;
                 links := (path.Join [dir; name], path.Join [dir; target])
                          :: filter (fun l => negb (String.eqb (path.Join [dir; name]) (fst l)))
                               (links d) |})
  | CombinedOutput dir "mv" ["-T"; src; dst] =>
      match find (fun l => String.eqb (path.Join [dir; src]) (fst l)) (links d) with
      | Some l =>
          (ok "", {| entries := entries d;
                     links := (path.Join [dir; dst], snd l)
                              :: filter (fun l => negb (String.eqb (path.Join [dir; src]) (fst l))
                                                  && negb (String.eqb (path.Join [dir; dst]) (fst l)))
                                   (links d) |})
      | None => (failed (line ("mv: cannot stat '" ++ src ++ "': No such file or directory"))
                   "exit status 1", d)
      end
  | _ => (ok "", d)
  end.

Definition emptyDisk : Disk := {| entries := []; links := [] |}.

(** The disk after one successful pass of [sync] for [sampleOption]. *)
Definition syncedDisk : Disk := {|
  entries := ["/git/rev-9f3c/.git"; "/git/rev-9f3c"; "/git"; "/git/.git"];
  links := [("/git/app", "/git/rev-9f3c")]
|}.

(** [sampleOption] pinned to a commit, in one-shot mode. *)
Definition pinnedOption : SyncOption := {|
  Username := ""; Password := ""; SSH := false;
  Repo := "https://example.com/r.git"; Branch := "master"; Rev := "9f3c51d0"; Depth := 0;
  Root := "/git"; Dest := "app";
  Wait := 1%float; OneTime := true; MaxSyncFailures := 3; Chmod := 0
|}.

(** Answers for a first pass of [sync] in which every call succeeds and
    [git rev-list] prints [hash], followed by the answer to one more
    [git rev-list]. *)
Definition firstPassScript (hash : string) : list Answer :=
  [notExist "stat: no such file or directory"; ok "";
   ok (hash ++ String strings.nl EmptyString);
   ok ""; ok ""; ok ""; ok "";
   notExist "lstat: no such file or directory"; ok ""; ok "";
   ok (hash ++ String strings.nl EmptyString)].
(* ------------------------------------------------------------------ *)
(** ** More sample environments *)


(** An environment in which every call fails. *)
Definition unreachable (e : Event) (w : unit) : Answer * unit :=
  (failed "" "host unreachable", w).

(** An environment for the start-up that answers from a script, like
    [scripted]. *)
Definition setupScripted (c : Setup.Call) (script : list Setup.Reply)
  : Setup.Reply * list Setup.Reply :=
  match script with
  | r :: rest => (r, rest)
  | [] => ({| Setup.output := ""; Setup.mode := 0;
              Setup.failure := Some (Setup.SysError "script exhausted") |}, [])
  end.

Definition fine : Setup.Reply :=
  {| Setup.output := ""; Setup.mode := 0; Setup.failure := None |}.
Definition broken (msg : string) : Setup.Reply :=
  {| Setup.output := ""; Setup.mode := 0; Setup.failure := Some (Setup.SysError msg) |}.
Definition withMode (m : Z) : Setup.Reply :=
  {| Setup.output := ""; Setup.mode := m; Setup.failure := None |}.

(** [onDisk] with an [mv] that refuses to rename a file onto itself, as
    [mv] does. *)
Definition strictDisk (e : Event) (d : Disk) : Answer * Disk :=
  match e with
  | CombinedOutput dir "mv" ["-T"; src; dst] =>
      if (src =? dst)%string
      then (failed ("mv: '" ++ src ++ "' and '" ++ dst ++ "' are the same file"
                    ++ String strings.nl EmptyString) "exit status 1", d)
      else onDisk e d
  | _ => onDisk e d
  end.

(** A disk on which the pointer [link] of [/git] names the worktree
    [/git/rev-old], with a new worktree [/git/rev-new] ready to be
    published. *)
Definition publishedDisk (link : string) : Disk := {|
  entries := ["/git/rev-old"; "/git/rev-new"; "/git"];
  links := [(path.Join ["/git"; link], "/git/rev-old")]
|}.


(* ------------------------------------------------------------------ *)
(** ** Running programs: general facts *)

Lemma precededBy_split {X : Type} (P Q : X -> Prop) (rest : list X) :
  forall seen, precededBy P Q seen rest ->
  forall pre x post, rest = (pre ++ x :: post)%list -> Q x ->
  exists y, In y (seen ++ pre)%list /\ P y.
Proof.
  induction rest as [| z rest IH]; intros seen Hall pre x post Heq HQ.
  - destruct pre; discriminate.
  - destruct Hall as [Hz Hrest].
    destruct pre as [| z' pre]; simpl in Heq; injection Heq as -> ->.
    + rewrite app_nil_r; auto.
    + destruct (IH _ Hrest pre x post eq_refl HQ) as (y & Hin & HP).
      exists y; split; [ | exact HP ].
      rewrite <- app_assoc in Hin; exact Hin.
Qed.

Lemma execArgs_plain (lib : GoLib) (command : string) (args : list string) :
  forallb (fun a => negb (strings.ContainsAny a strings.blanks)) args = true ->
  execArgs lib command args = args.
Proof.
  unfold execArgs, cmdForLog; simpl.
  induction args as [| a args IH]; simpl; [ reflexivity | ].
  intros H; apply andb_prop in H; destruct H as [Ha Hargs].
  apply negb_true_iff in Ha; rewrite Ha, (IH Hargs); reflexivity.
Qed.

(** [strings.Split] always yields a first piece, so [parts[0]] cannot fail. *)
Lemma Split_first_piece (s : string) (sep : ascii) :
  exists first rest, strings.Split s sep = first :: rest.
Proof.
  unfold strings.Split.
  induction s as [| c s IH]; [ eauto | ].
  destruct (Ascii.eqb c sep); [ eauto | ].
  destruct IH as (first & rest & ->); eauto.
Qed.

(** Symbolic execution of a run kept in hypothesis [H]: one case per answer
    of the environment and per test of the program. *)
Ltac exec handle lib H :=
  repeat (cbn [run bind call fst snd] in H;
          match type of H with
          | context [handle (Infof ?v ?f ?a) ?w] => destruct (handle (Infof v f a) w) as [? ?]
          | context [handle (Errorf_log ?f ?a) ?w] =>
              destruct (handle (Errorf_log f a) w) as [? ?]
          | context [handle (Sleep ?d) ?w] => destruct (handle (Sleep d) w) as [? ?]
          | context [handle (AwaitSignal ?s) ?w] => destruct (handle (AwaitSignal s) w) as [? ?]
          | context [handle ?e ?w] => destruct (handle e w) as [[? [? |]] ?]
          | context [Rel lib ?a ?b] => destruct (Rel lib a b) as [? [? |]]
          | context [if negb ?b then _ else _] => destruct b eqn:?; cbn [negb] in H
          | context [if ?b then _ else _] => destruct b eqn:?
          end);
  cbn [run bind call fst snd] in H.

(** Refuting a wrong claim about one entry of a trace. *)
Ltac no_cleanup H :=
  clear - H; destruct H as [[? H] | H]; cbn [fst] in H;
  [ discriminate H
  | unfold pruneEvent, execArgs, cmdForLog in H; cbn [snd map] in H; congruence ].

Ltac no_rename H :=
  clear - H; destruct H as [H ?]; cbn [fst snd] in *;
  unfold renameEvent in H; congruence.

Ltac no_failure H :=
  destruct H as [(? & ? & ?) | [((? & ?) & ?) | (? & ?)]];
  cbn [fst snd] in *; unfold recordEvent, linkEvent, renameEvent in *; congruence.

Ltac pick_entry :=
  cbn [In app]; solve [ repeat (first [ left; reflexivity | right ]) ].

Ltac each_entry Hin :=
  cbn [In app] in Hin;
  repeat (destruct Hin as [<- | Hin]; [ | ]); [ .. | contradiction ].

Ltac prefix_of l tail :=
  lazymatch l with
  | tail => constr:(@nil (Event * Answer))
  | ?x :: ?l' => let p := prefix_of l' tail in constr:(x :: p)
  end.

(** No entry of a list of calls is a cleanup call. *)
Ltac no_cleanup_at_all :=
  repeat (apply Forall_cons; [ let Hc := fresh "Hc" in intros Hc; no_cleanup Hc | ]);
  first [ apply Forall_nil | assumption ].

Section RunFacts.

Variable lib : GoLib.
Variable World : Type.
Variable handle : Event -> World -> Answer * World.

Lemma run_bind {A B : Type} (p : Prog A) (f : A -> Prog B) (w : World) :
  run handle (bind p f) w =
    match run handle p w with
    | (tr1, Returned a, w1) =>
        match run handle (f a) w1 with
        | (tr2, out, w2) => ((tr1 ++ tr2)%list, out, w2)
        end
    | (tr1, Exited code, w1) => (tr1, Exited code, w1)
    end.
Proof.
  revert w; induction p as [a | code | e k IH]; intros w; simpl.
  - destruct (run handle (f a) w) as [[tr2 out] w2]; reflexivity.
  - reflexivity.
  - destruct (handle e w) as [ans w1].
    rewrite IH.
    destruct (run handle (k ans) w1) as [[tr1 [a | code]] w2]; [ | reflexivity ].
    destruct (run handle (f a) w2) as [[tr2 out] w3]; reflexivity.
Qed.

(** [runCommand] logs the command line, runs the child process once and
    returns. *)
Lemma run_runCommand (cwd command : string) (args : list string) (w : World) :
  exists (logged ans : Answer) (w' : World),
    run handle (runCommand lib cwd command args) w =
      ([(Infof 5 "run(%q): %s" [StrArg cwd; StrArg (fst (cmdForLog lib command args))], logged);
        (CombinedOutput cwd command (execArgs lib command args), ans)],
       Returned (commandResult ans), w').
Proof.
  unfold runCommand, execArgs, commandResult.
  cbn [run bind call].
  destruct (handle _ w) as [logged w1].
  destruct (handle _ w1) as [ans w2] eqn:Hans.
  exists logged, ans, w2.
  destruct ans as [output [err |]]; reflexivity.
Qed.

End RunFacts.

(* ------------------------------------------------------------------ *)
(** ** Remote head resolution *)

Section RemoteHead.

Variable lib : GoLib.
Variable World : Type.
Variable handle : Event -> World -> Answer * World.

Lemma run_remoteHashForRef (ref gitRoot : string) (w : World) :
  exists (logged ans : Answer) (w' : World),
    run handle (remoteHashForRef lib ref gitRoot) w =
      ([(Infof 5 "run(%q): %s"
           [StrArg gitRoot;
            StrArg (fst (cmdForLog lib "git" ["ls-remote"; "-q"; "origin"; ref]))], logged);
        (lsRemote lib ref gitRoot, ans)],
       Returned (match snd ans with
                 | Some err => ("", snd (commandResult ans))
                 | None => (nth 0 (strings.Split (fst ans) strings.tab) "", None)
                 end), w').
Proof.
  unfold remoteHashForRef, lsRemote.
  destruct (run_runCommand lib World handle gitRoot "git" ["ls-remote"; "-q"; "origin"; ref] w)
    as (logged & ans & w' & Hrun).
  rewrite run_bind, Hrun.
  exists logged, ans, w'.
  unfold commandResult; destruct ans as [output [err |]]; reflexivity.
Qed.

(** C5 (as amended): [remoteHashForRef] runs [git ls-remote -q origin ref] in
    [gitRoot] exactly once.  It returns an error exactly when that command
    reports one.  When the command succeeds the call succeeds as well, with
    the first tab-separated piece of the output, whatever it is; the output
    is not inspected any further. *)
Theorem remoteHashForRef_follows_command (ref gitRoot : string) (w : World) :
  exists (ans : Answer) (hash : string) (rest : list string),
    loud (trace_of handle (remoteHashForRef lib ref gitRoot) w) = [(lsRemote lib ref gitRoot, ans)]
    /\ strings.Split (fst ans) strings.tab = hash :: rest
    /\ outcome_of handle (remoteHashForRef lib ref gitRoot) w =
         Returned (match snd ans with
                   | Some err =>
                       ("", Some (Errorf "error running command: %v: %q"
                                    [ErrArg err; StrArg (fst ans)]))
                   | None => (hash, None)
                   end).
Proof.
  destruct (run_remoteHashForRef ref gitRoot w) as (logged & ans & w' & Hrun).
  destruct (Split_first_piece (fst ans) strings.tab) as (hash & rest & Hsplit).
  exists ans, hash, rest.
  unfold trace_of, outcome_of; rewrite Hrun, Hsplit; cbn [fst snd nth].
  split; [ reflexivity | split; [ reflexivity | ] ].
  unfold commandResult; destruct (snd ans); reflexivity.
Qed.

(** A ref without blanks reaches [git] as it is. *)
Lemma lsRemote_plain (ref gitRoot : string) :
  strings.ContainsAny ref strings.blanks = false ->
  lsRemote lib ref gitRoot = CombinedOutput gitRoot "git" ["ls-remote"; "-q"; "origin"; ref].
Proof.
  intros Hplain; unfold lsRemote.
  rewrite execArgs_plain; [ reflexivity | ].
  cbn [forallb]; rewrite Hplain; reflexivity.
Qed.

End RemoteHead.

(** C5, counterexample: [git ls-remote -q] exits with status 0 and prints
    nothing when the remote has no ref of that name; [remoteHashForRef] then
    reports success with the empty string. *)
Lemma remoteHashForRef_missing_ref_succeeds :
  run scripted (remoteHashForRef sampleLib "refs/tags/v9^{}" "/git") [ok ""]
  = ([(Infof 5 "run(%q): %s" [StrArg "/git"; StrArg "git ls-remote -q origin refs/tags/v9^{}"],
       ok "");
      (CombinedOutput "/git" "git" ["ls-remote"; "-q"; "origin"; "refs/tags/v9^{}"], ok "")],
     Returned ("", None), []).
Proof. vm_compute; reflexivity. Qed.

(* ------------------------------------------------------------------ *)
(** ** Publishing: [updateSymlink] *)

Section Publish.

Variable lib : GoLib.
Variable World : Type.
Variable handle : Event -> World -> Answer * World.

(** The order of the calls of [updateSymlink], with the commands as
    [runCommand] hands them to the child process: a cleanup call comes only
    after the rename was answered without error; and a run in which one of
    the first three steps failed returns an error and holds, besides log
    lines, the reading of the previous target, the creation of the temporary
    link and at most the rename that failed. *)
Lemma updateSymlink_protocol (gitRoot link newDir : string) (w : World) :
  let tr := trace_of handle (updateSymlink lib gitRoot link newDir) w in
  let out := outcome_of handle (updateSymlink lib gitRoot link newDir) w in
  (forall pre x post,
      tr = (pre ++ x :: post)%list -> isCleanup lib gitRoot x ->
      exists y, In y pre /\ renamed lib gitRoot link y)
  /\ (forall x,
        In x tr -> publishStepFailed lib gitRoot link x ->
        (exists err, out = Returned (Some err))
        /\ (forall y, In y tr -> ~ isCleanup lib gitRoot y)
        /\ (forall y, In y tr -> ~ renamed lib gitRoot link y)
        /\ (forall y,
              In y tr ->
              is_quiet (fst y) = true
              \/ fst y = recordEvent gitRoot link
              \/ (exists target, fst y = linkEvent lib gitRoot target)
              \/ (fst y = renameEvent lib gitRoot link /\ snd (snd y) <> None))).
Proof.
  unfold trace_of, outcome_of.
  destruct (run handle (updateSymlink lib gitRoot link newDir) w) as [[tr out] w'] eqn:Hrun.
  cbn [fst snd].
  unfold updateSymlink, runCommand in Hrun.
  exec handle lib Hrun; injection Hrun as <- <- <-.
  all: split;
    [ intros pre x post Heq Hx;
      refine (precededBy_split (renamed lib gitRoot link) (isCleanup lib gitRoot) _ [] _ pre x post Heq Hx);
      clear; cbn [precededBy app]; repeat split; intros Hc;
      first [ no_cleanup Hc
            | match goal with
              | |- context [(CombinedOutput ?d "mv" ?a, (?o, None))] =>
                  exists (CombinedOutput d "mv" a, (o, None)); split;
                  [ pick_entry | split; reflexivity ]
              end ]
    | intros x Hin Hfail; each_entry Hin;
      first [ solve [ no_failure Hfail ]
            | clear; split; [ eexists; reflexivity | ];
              split; [ | split ];
              [ intros y Hy Hc; each_entry Hy; no_cleanup Hc
              | intros y Hy Hc; each_entry Hy; no_rename Hc
              | intros y Hy; each_entry Hy; cbn [fst snd is_quiet];
                first [ left; reflexivity
                      | right; left; reflexivity
                      | right; right; left; eexists; reflexivity
                      | right; right; right; split; [ reflexivity | discriminate ] ] ] ] ].
Qed.

Lemma execArgs_link (target : string) :
  execArgs lib "ln" ["-snf"; target; "tmp-link"] =
    ["-snf";
     if strings.ContainsAny target strings.blanks then Quote lib target else target;
     "tmp-link"].
Proof. reflexivity. Qed.

Lemma execArgs_rename (link : string) :
  strings.ContainsAny link strings.blanks = false ->
  execArgs lib "mv" ["-T"; "tmp-link"; link] = ["-T"; "tmp-link"; link].
Proof.
  intros Hplain; unfold execArgs, cmdForLog; cbn [snd map].
  rewrite Hplain; reflexivity.
Qed.

(** C1 (as amended): for a pointer whose name holds no space, tab or newline
    and is not [tmp-link].  In every run of [updateSymlink], a call that
    deletes a directory or prunes worktree metadata comes only after
    [mv -T tmp-link <link>], run in [gitRoot] with the pointer's own name,
    was answered without error.  And when reading the previous target fails
    (other than by its absence), or creating the temporary link fails, or
    the rename fails, [updateSymlink] returns an error, and its run holds no
    deletion, no prune, no successful rename onto the pointer and no [ln]
    that writes the pointer's name: besides logging, the calls it made are
    the reading of the previous target, [ln -snf <target> tmp-link] in
    [gitRoot] and, at most, the rename that failed. *)
Theorem updateSymlink_retires_after_rename (gitRoot link newDir : string) (w : World) :
  strings.ContainsAny link strings.blanks = false ->
  link <> "tmp-link" ->
  let tr := trace_of handle (updateSymlink lib gitRoot link newDir) w in
  let out := outcome_of handle (updateSymlink lib gitRoot link newDir) w in
  (forall pre x post,
      tr = (pre ++ x :: post)%list -> isCleanup lib gitRoot x ->
      exists y, In y pre /\ renamedOnto gitRoot link y)
  /\ (forall x,
        In x tr -> publishStepFailed lib gitRoot link x ->
        (exists err, out = Returned (Some err))
        /\ (forall y, In y tr -> ~ isCleanup lib gitRoot y)
        /\ (forall y, In y tr -> ~ renamedOnto gitRoot link y)
        /\ (forall y, In y tr -> ~ makesLink gitRoot link (fst y))
        /\ (forall y,
              In y tr ->
              is_quiet (fst y) = true
              \/ fst y = EvalSymlinks (path.Join [gitRoot; link])
              \/ makesLink gitRoot "tmp-link" (fst y)
              \/ (fst y = CombinedOutput gitRoot "mv" ["-T"; "tmp-link"; link]
                  /\ snd (snd y) <> None))).
Proof.
  intros Hplain Hother tr out.
  assert (Hmv : renameEvent lib gitRoot link
                = CombinedOutput gitRoot "mv" ["-T"; "tmp-link"; link])
    by (unfold renameEvent; rewrite (execArgs_rename link Hplain); reflexivity).
  destruct (updateSymlink_protocol gitRoot link newDir w) as [Horder Hfailed].
  fold tr in Horder, Hfailed; fold out in Hfailed.
  split.
  - intros pre x post Heq Hx.
    destruct (Horder pre x post Heq Hx) as (y & Hin & Hy & Hnone).
    exists y; split; [ exact Hin | ].
    split; [ rewrite <- Hmv; exact Hy | exact Hnone ].
  - intros x Hin Hx.
    destruct (Hfailed x Hin Hx) as (Herr & Hclean & Hren & Hcalls).
    split; [ exact Herr | ].
    split; [ exact Hclean | ].
    split; [ | split ].
    + intros y Hy [Hmove Hnone].
      apply (Hren y Hy); split; [ rewrite Hmv; exact Hmove | exact Hnone ].
    + intros y Hy [target Hmake].
      destruct (Hcalls y Hy) as [Hq | [Hrec | [[target' Hln] | [Hmove _]]]].
      * rewrite Hmake in Hq; discriminate Hq.
      * rewrite Hmake in Hrec; discriminate Hrec.
      * rewrite Hmake in Hln; unfold linkEvent in Hln; rewrite execArgs_link in Hln.
        injection Hln as _ Hname; exact (Hother Hname).
      * rewrite Hmake, Hmv in Hmove; discriminate Hmove.
    + intros y Hy.
      destruct (Hcalls y Hy) as [Hq | [Hrec | [[target' Hln] | [Hmove Hbad]]]].
      * left; exact Hq.
      * right; left; exact Hrec.
      * right; right; left.
        unfold linkEvent in Hln; rewrite execArgs_link in Hln.
        eexists; exact Hln.
      * right; right; right; split; [ rewrite <- Hmv; exact Hmove | exact Hbad ].
Qed.

(** When a cleanup call of [updateSymlink] fails, the function returns an
    error; that call is the last one it makes, and the rename had been
    answered without error before. *)
Lemma updateSymlink_cleanup_failure (gitRoot link newDir : string) (w : World) :
  forall x,
    In x (trace_of handle (updateSymlink lib gitRoot link newDir) w) ->
    isCleanup lib gitRoot x -> snd (snd x) <> None ->
    (exists err,
        outcome_of handle (updateSymlink lib gitRoot link newDir) w = Returned (Some err))
    /\ (exists pre,
          trace_of handle (updateSymlink lib gitRoot link newDir) w = (pre ++ [x])%list
          /\ exists y, In y pre /\ renamed lib gitRoot link y).
Proof.
  unfold trace_of, outcome_of.
  destruct (run handle (updateSymlink lib gitRoot link newDir) w) as [[tr out] w'] eqn:Hrun.
  cbn [fst snd].
  unfold updateSymlink, runCommand in Hrun.
  exec handle lib Hrun; injection Hrun as <- <- <-.
  all: intros x Hin Hc Hfail; each_entry Hin;
    first [ no_cleanup Hc
          | exfalso; apply Hfail; reflexivity
          | clear; split; [ eexists; reflexivity | ];
            match goal with
            | |- exists pre, ?l = (pre ++ [_])%list /\ _ =>
                exists (removelast l); split; [ reflexivity | cbn [removelast] ]
            end;
            match goal with
            | |- context [(CombinedOutput ?d "mv" ?a, (?o, None))] =>
                exists (CombinedOutput d "mv" a, (o, None)); split;
                [ pick_entry | split; reflexivity ]
            end ].
Qed.

(** [addWorktreeAndSwap] either stops before publishing, having made no
    cleanup call, or ends with a run of [updateSymlink] whose result it
    returns. *)
Lemma addWorktreeAndSwap_publishes_last (o : SyncOption) (hash : string) (w : World) :
  let publish := updateSymlink lib (Root o) (Dest o) (path.Join [Root o; "rev-" ++ hash]) in
  Forall (fun y => ~ isCleanup lib (Root o) y) (trace_of handle (addWorktreeAndSwap lib o hash) w)
  \/ exists tr1 w1,
      Forall (fun y => ~ isCleanup lib (Root o) y) tr1
      /\ run handle (addWorktreeAndSwap lib o hash) w =
           (app tr1 (trace_of handle publish w1),
            outcome_of handle publish w1, world_after handle publish w1).
Proof.
  intros publish; unfold trace_of, outcome_of, world_after.
  destruct (run handle (addWorktreeAndSwap lib o hash) w) as [[tr out] w'] eqn:Hrun.
  cbn [fst snd].
  unfold addWorktreeAndSwap, runCommand in Hrun; fold publish in Hrun.
  exec handle lib Hrun.
  all: try (injection Hrun as <- <- <-; left; no_cleanup_at_all).
  all: right;
    match type of Hrun with
    | context [run handle ?p ?w1] =>
        let trP := fresh "trP" in
        destruct (run handle p w1) as [[trP ?] ?] eqn:Hpub;
        cbv beta iota zeta in Hrun;
        injection Hrun as <- <- <-;
        match goal with
        | |- exists _ _, _ /\ (?l, _, _) = _ =>
            let pre := prefix_of l trP in exists pre, w1; rewrite Hpub
        end
    end.
  all: split; [ no_cleanup_at_all | reflexivity ].
Qed.


(** [sync] either never reaches the publish step, having made no cleanup
    call, or ends with a run of [updateSymlink] whose result it returns. *)
Lemma sync_publishes_last (o : SyncOption) (w : World) :
  Forall (fun y => ~ isCleanup lib (Root o) y) (trace_of handle (sync lib o) w)
  \/ exists hash tr1 w1,
      let publish := updateSymlink lib (Root o) (Dest o) (path.Join [Root o; "rev-" ++ hash]) in
      Forall (fun y => ~ isCleanup lib (Root o) y) tr1
      /\ run handle (sync lib o) w =
           (app tr1 (trace_of handle publish w1),
            outcome_of handle publish w1, world_after handle publish w1).
Proof.
  unfold trace_of, outcome_of, world_after.
  destruct (run handle (sync lib o) w) as [[tr out] w'] eqn:Hrun.
  cbn [fst snd].
  unfold sync, cloneRepo, getRevs, remoteHashForRef, hashForRev, runCommand in Hrun.
  exec handle lib Hrun.
  all: try (injection Hrun as <- <- <-; left; no_cleanup_at_all).
  all: match type of Hrun with
       | context [run handle (addWorktreeAndSwap lib ?o' ?hash) ?w0] =>
           destruct (addWorktreeAndSwap_publishes_last o' hash w0)
             as [Hnone | (trPre & wPub & Hpre & Hpub)];
           [ unfold trace_of in Hnone;
             destruct (run handle (addWorktreeAndSwap lib o' hash) w0) as [[trA ?] ?];
             cbn [fst snd] in Hnone; cbv beta iota zeta in Hrun;
             injection Hrun as <- <- <-; left; no_cleanup_at_all
           | rewrite Hpub in Hrun; cbv beta iota zeta in Hrun;
             injection Hrun as <- <- <-; right;
             match goal with
             | |- exists _ _ _, _ /\ (?l, _, _) = _ =>
                 match l with
                 | context [app trPre ?trP] =>
                     let pre := prefix_of l (app trPre trP) in
                     exists hash, (app pre trPre), wPub
                 end
             end;
             split; [ apply Forall_app; split; [ no_cleanup_at_all | exact Hpre ]
                    | reflexivity ] ]
       end.
Qed.

(** C4 (as amended): when, in a pass of [sync], a cleanup call fails (the
    removal of the previous worktree's directory, or the prune), the pass
    returns an error: the failure is reported, not swallowed.  The failed
    call is the last call of the pass, so nothing is logged about it there,
    no prune follows a failed removal, and nothing undoes the rename, which
    had been answered without error earlier in the pass. *)
Theorem sync_reports_cleanup_failure (o : SyncOption) (w : World) :
  forall x,
    In x (trace_of handle (sync lib o) w) ->
    isCleanup lib (Root o) x -> snd (snd x) <> None ->
    (exists err, outcome_of handle (sync lib o) w = Returned (Some err))
    /\ (exists pre,
          trace_of handle (sync lib o) w = (pre ++ [x])%list
          /\ exists y, In y pre /\ renamed lib (Root o) (Dest o) y).
Proof.
  intros x Hin Hc Hfail.
  destruct (sync_publishes_last o w) as [Hnone | (hash & tr1 & w1 & Hpre & Hrun)].
  - rewrite Forall_forall in Hnone; destruct (Hnone x Hin Hc).
  - unfold trace_of, outcome_of in Hin |- *; rewrite Hrun in Hin |- *; cbn [fst snd] in Hin |- *.
    apply in_app_or in Hin; destruct Hin as [Hin | Hin].
    + rewrite Forall_forall in Hpre; destruct (Hpre x Hin Hc).
    + destruct (updateSymlink_cleanup_failure _ _ _ _ x Hin Hc Hfail)
        as [Herr (pre & Htr & y & Hy & Hren)].
      split; [ exact Herr | ].
      exists (tr1 ++ pre)%list; split.
      * unfold trace_of in Htr |- *; rewrite Htr; apply app_assoc.
      * exists y; split; [ apply in_or_app; right; exact Hy | exact Hren ].
Qed.

(** C8 (as amended): whenever [updateSymlink] creates the temporary link it
    does so in [gitRoot] under the fixed name [tmp-link], and the target it
    gives to [ln] is the path that [filepath.Rel(gitRoot, newDir)] returned,
    as [runCommand] passes it on. *)
Theorem updateSymlink_temporary_link (gitRoot link newDir : string) (w : World) :
  forall x dir args,
    In x (trace_of handle (updateSymlink lib gitRoot link newDir) w) ->
    fst x = CombinedOutput dir "ln" args ->
    dir = gitRoot
    /\ exists target,
        Rel lib gitRoot newDir = (target, None)
        /\ args = ["-snf";
                   if strings.ContainsAny target strings.blanks
                   then Quote lib target else target;
                   "tmp-link"].
Proof.
  unfold trace_of.
  destruct (run handle (updateSymlink lib gitRoot link newDir) w) as [[tr out] w'] eqn:Hrun.
  cbn [fst snd].
  unfold updateSymlink, runCommand in Hrun.
  destruct (Rel lib gitRoot newDir) as [target [err |]] eqn:Hrel.
  all: exec handle lib Hrun; injection Hrun as <- <- <-.
  all: intros x dir args Hin Hln; each_entry Hin; cbn [fst] in Hln;
    try discriminate Hln.
  all: injection Hln as <- <-; split; [ reflexivity | ];
    exists target; split; reflexivity.
Qed.

End Publish.

(** C1, witness: the directory of the previous worktree is known, the
    temporary link is created, and [mv] fails. *)
Lemma updateSymlink_retires_after_rename_witness :
  (exists err,
      outcome_of scripted (updateSymlink sampleLib "/git" "app" "/git/rev-new")
        [ok "/git/rev-old"; ok ""; failed "" "exit status 1"] = Returned (Some err))
  /\ (forall y,
        In y (trace_of scripted (updateSymlink sampleLib "/git" "app" "/git/rev-new")
                [ok "/git/rev-old"; ok ""; failed "" "exit status 1"]) ->
        ~ isCleanup sampleLib "/git" y)
  /\ (forall y,
        In y (trace_of scripted (updateSymlink sampleLib "/git" "app" "/git/rev-new")
                [ok "/git/rev-old"; ok ""; failed "" "exit status 1"]) ->
        ~ renamedOnto "/git" "app" y)
  /\ (forall y,
        In y (trace_of scripted (updateSymlink sampleLib "/git" "app" "/git/rev-new")
                [ok "/git/rev-old"; ok ""; failed "" "exit status 1"]) ->
        ~ makesLink "/git" "app" (fst y)).
Proof.
  refine ((fun H => conj (proj1 H)
                      (conj (proj1 (proj2 H))
                         (conj (proj1 (proj2 (proj2 H)))
                            (proj1 (proj2 (proj2 (proj2 H))))))) _).
  apply (proj2 (updateSymlink_retires_after_rename sampleLib _ scripted
                  "/git" "app" "/git/rev-new"
                  [ok "/git/rev-old"; ok ""; failed "" "exit status 1"]
                  eq_refl ltac:(discriminate))
           (renameEvent sampleLib "/git" "app", failed "" "exit status 1")).
  - vm_compute; tauto.
  - right; right; split; [ reflexivity | discriminate ].
Defined.

(** C1, counterexample.  The pointer is named [tmp-link]: creating the
    temporary link replaces the pointer itself, the rename of [tmp-link] onto
    [tmp-link] fails, and [updateSymlink] returns an error with the pointer
    moved to the new worktree.  The pointer is named [my app]: [mv] gets the
    quoted name, so nothing is renamed onto the pointer, the call succeeds
    all the same, and the previous worktree is deleted while the pointer
    still names it. *)
Lemma updateSymlink_pointer_name_matters :
  (let p := updateSymlink sampleLib "/git" "tmp-link" "/git/rev-new" in
   let d := publishedDisk "tmp-link" in
   (exists x, In x (trace_of strictDisk p d)
              /\ publishStepFailed sampleLib "/git" "tmp-link" x)
   /\ (exists err, outcome_of strictDisk p d = Returned (Some err))
   /\ fst (strictDisk (EvalSymlinks "/git/tmp-link") d) = ok "/git/rev-old"
   /\ fst (strictDisk (EvalSymlinks "/git/tmp-link") (world_after strictDisk p d))
      = ok "/git/rev-new")
  /\ (let p := updateSymlink sampleLib "/git" "my app" "/git/rev-new" in
      let d := publishedDisk "my app" in
      outcome_of strictDisk p d = Returned None
      /\ In (RemoveAll "/git/rev-old", ok "") (trace_of strictDisk p d)
      /\ (forall y, In y (trace_of strictDisk p d) -> ~ renamedOnto "/git" "my app" y)
      /\ fst (strictDisk (EvalSymlinks "/git/my app") (world_after strictDisk p d))
         = ok "/git/rev-old"
      /\ fst (strictDisk (Stat "/git/rev-old") d) = ok ""
      /\ os_IsNotExist (snd (fst (strictDisk (Stat "/git/rev-old")
                                    (world_after strictDisk p d)))) = true).
Proof.
  split; cbv zeta.
  - split; [ | split; [ | split ] ].
    + exists (renameEvent sampleLib "/git" "tmp-link",
              failed ("mv: 'tmp-link' and 'tmp-link' are the same file"
                      ++ String strings.nl EmptyString) "exit status 1").
      split; [ vm_compute; tauto | ].
      right; right; split; [ reflexivity | discriminate ].
    + vm_compute; eexists; reflexivity.
    + vm_compute; reflexivity.
    + vm_compute; reflexivity.
  - split; [ | split; [ | split; [ | split; [ | split ] ] ] ].
    + vm_compute; reflexivity.
    + vm_compute; tauto.
    + intros y Hy [Hmove _]; vm_compute in Hy.
      repeat (destruct Hy as [<- | Hy]; [ discriminate Hmove | ]); exact Hy.
    + vm_compute; reflexivity.
    + vm_compute; reflexivity.
    + vm_compute; reflexivity.
Qed.

(** C4, witness: the previous worktree's directory cannot be removed. *)
Lemma sync_reports_cleanup_failure_witness :
  exists err,
    outcome_of scripted (sync sampleLib sampleOption)
      [ok ""; ok ("9f3c" ++ String strings.nl ""); ok ("77aa" ++ String strings.tab "refs/heads/master");
       ok ""; ok ""; ok ""; ok ""; ok "/git/rev-9f3c"; ok ""; ok "";
       failed "" "unlinkat /git/rev-9f3c: permission denied"]
    = Returned (Some err).
Proof.
  apply (sync_reports_cleanup_failure sampleLib _ scripted sampleOption _
           (RemoveAll "/git/rev-9f3c", failed "" "unlinkat /git/rev-9f3c: permission denied")).
  - vm_compute; tauto.
  - left; exists "/git/rev-9f3c"; reflexivity.
  - discriminate.
Defined.

(** C4, counterexample: the rename succeeds and the removal of the previous
    worktree fails; [updateSymlink] returns the error and logs nothing about
    it. *)
Lemma updateSymlink_cleanup_error_not_swallowed :
  run scripted (updateSymlink sampleLib "/git" "app" "/git/rev-77aa")
    [ok "/git/rev-9f3c"; ok ""; ok ""; failed "" "unlinkat /git/rev-9f3c: permission denied"]
  = ([(EvalSymlinks "/git/app", ok "/git/rev-9f3c");
      (Infof 5 "run(%q): %s" [StrArg "/git"; StrArg "ln -snf rev-77aa tmp-link"], ok "");
      (CombinedOutput "/git" "ln" ["-snf"; "rev-77aa"; "tmp-link"], ok "");
      (Infof 1 "created symlink %s -> %s" [StrArg "tmp-link"; StrArg "rev-77aa"], ok "");
      (Infof 5 "run(%q): %s" [StrArg "/git"; StrArg "mv -T tmp-link app"], ok "");
      (CombinedOutput "/git" "mv" ["-T"; "tmp-link"; "app"], ok "");
      (Infof 1 "renamed symlink %s to %s" [StrArg "tmp-link"; StrArg "app"], ok "");
      (RemoveAll "/git/rev-9f3c", failed "" "unlinkat /git/rev-9f3c: permission denied")],
     Returned (Some (Errorf "error removing directory: %v"
                       [ErrArg (SysError false "unlinkat /git/rev-9f3c: permission denied")])),
     []).
Proof. vm_compute; reflexivity. Qed.

(** C8, witness: a first publish under [/git]. *)
Lemma updateSymlink_temporary_link_witness :
  exists target,
    Rel sampleLib "/git" "/git/rev-77aa" = (target, None)
    /\ ["-snf"; "rev-77aa"; "tmp-link"] =
       ["-snf";
        if strings.ContainsAny target strings.blanks then Quote sampleLib target else target;
        "tmp-link"].
Proof.
  apply (updateSymlink_temporary_link sampleLib _ scripted "/git" "app" "/git/rev-77aa"
           [notExist "lstat /git/app: no such file or directory"; ok ""; ok ""]
           (CombinedOutput "/git" "ln" ["-snf"; "rev-77aa"; "tmp-link"], ok "")
           "/git" ["-snf"; "rev-77aa"; "tmp-link"]).
  - vm_compute; tauto.
  - reflexivity.
Defined.

(** C8, counterexample: two publishes in a row create their temporary link
    under the same name. *)
Lemma temporary_link_name_is_reused :
  events (loud (trace_of scripted
                  (updateSymlink sampleLib "/git" "app" "/git/rev-9f3c" ;;
                   updateSymlink sampleLib "/git" "app" "/git/rev-77aa")
                  [notExist "lstat /git/app: no such file or directory"; ok ""; ok "";
                   ok "/git/rev-9f3c"; ok ""; ok ""; ok ""; ok ""]))
  = [EvalSymlinks "/git/app";
     CombinedOutput "/git" "ln" ["-snf"; "rev-9f3c"; "tmp-link"];
     CombinedOutput "/git" "mv" ["-T"; "tmp-link"; "app"];
     EvalSymlinks "/git/app";
     CombinedOutput "/git" "ln" ["-snf"; "rev-77aa"; "tmp-link"];
     CombinedOutput "/git" "mv" ["-T"; "tmp-link"; "app"];
     RemoveAll "/git/rev-9f3c";
     CombinedOutput "/git" "git" ["worktree"; "prune"]].
Proof. vm_compute; reflexivity. Qed.

(* ------------------------------------------------------------------ *)
(** ** The revision resolver *)

(** [strings.HasPrefix] is the prefix relation on strings. *)
Lemma HasPrefix_iff (s prefix : string) :
  strings.HasPrefix s prefix = true <-> exists rest, s = prefix ++ rest.
Proof.
  unfold strings.HasPrefix.
  revert s; induction prefix as [| c prefix IH]; intros s.
  - split; [ intros _; exists s; reflexivity | intros _ ].
    destruct s; reflexivity.
  - destruct s as [| d s]; [ split; [ discriminate | intros [rest H]; discriminate ] | ].
    specialize (IH s).
    cbn [String.length String.substring Nat.leb String.eqb] in *.
    destruct (Ascii.eqb_spec d c) as [-> | Hdc].
    + rewrite IH; split; intros [rest H]; exists rest.
      * rewrite H; reflexivity.
      * injection H as H; exact H.
    + rewrite andb_false_r; split; [ discriminate | ].
      intros [rest H]; injection H as H _; contradiction.
Qed.

Section Resolver.

Variable lib : GoLib.
Variable World : Type.
Variable handle : Event -> World -> Answer * World.

(** [hashForRev] runs [git rev-list -n1 rev] in the root directory once and
    returns its output without the newlines around it. *)
Lemma run_hashForRev (o : SyncOption) (rev : string) (w : World) :
  exists (logged ans : Answer) (w' : World),
    run handle (hashForRev lib o rev) w =
      ([(Infof 5 "run(%q): %s"
           [StrArg (Root o); StrArg (fst (cmdForLog lib "git" ["rev-list"; "-n1"; rev]))],
         logged);
        (revList lib (Root o) rev, ans)],
       Returned (match snd ans with
                 | Some err => ("", snd (commandResult ans))
                 | None => (strings.Trim (fst ans) strings.nl, None)
                 end), w').
Proof.
  unfold hashForRev, revList.
  destruct (run_runCommand lib World handle (Root o) "git" ["rev-list"; "-n1"; rev] w)
    as (logged & ans & w' & Hrun).
  rewrite run_bind, Hrun.
  exists logged, ans, w'.
  unfold commandResult; destruct ans as [output [err |]]; reflexivity.
Qed.

(** C7: when local resolution of [rev] succeeds with the identifier [hash],
    [revIsHash rev] makes no further call and answers without error; its
    answer is [true] exactly when [hash] starts with [rev], so it is [true]
    when [rev] is the resolved hash itself. *)
Theorem revIsHash_is_prefix_test (o : SyncOption) (rev hash : string) (w : World) :
  outcome_of handle (hashForRev lib o rev) w = Returned (hash, None) ->
  exists isHash,
    outcome_of handle (revIsHash lib o rev) w = Returned (isHash, None)
    /\ trace_of handle (revIsHash lib o rev) w = trace_of handle (hashForRev lib o rev) w
    /\ (isHash = true <-> exists rest, hash = rev ++ rest)
    /\ (hash = rev -> isHash = true).
Proof.
  unfold outcome_of, trace_of, revIsHash.
  rewrite run_bind.
  destruct (run handle (hashForRev lib o rev) w) as [[tr out] w1]; cbn [fst snd].
  intros ->; cbn [run fst snd].
  exists (strings.HasPrefix hash rev).
  split; [ reflexivity | split; [ apply app_nil_r | split ] ].
  - apply HasPrefix_iff.
  - intros ->; apply HasPrefix_iff; exists ""; clear.
    induction rev as [| c rev IH]; [ reflexivity | cbn; rewrite <- IH; reflexivity ].
Qed.

(** C10: once the local resolution of its argument [rev] has succeeded,
    [getRevs] makes one more call that can fail, a [git ls-remote -q origin]
    in the root directory.  The ref it asks for is [refs/heads/<Branch>] when
    the configured [Rev] is the string [HEAD] and [refs/tags/<Rev>^{}] for
    any other configured [Rev]; the argument [rev] plays no part in it. *)
Theorem getRevs_remote_ref (o : SyncOption) (rev hash : string) (w : World) :
  outcome_of handle (hashForRev lib o rev) w = Returned (hash, None) ->
  exists ans,
    (Rev o = "HEAD" ->
     loud (trace_of handle (getRevs lib o rev) w) =
       (loud (trace_of handle (hashForRev lib o rev) w)
          ++ [(lsRemote lib ("refs/heads/" ++ Branch o) (Root o), ans)])%list)
    /\ (Rev o <> "HEAD" ->
        loud (trace_of handle (getRevs lib o rev) w) =
          (loud (trace_of handle (hashForRev lib o rev) w)
             ++ [(lsRemote lib ("refs/tags/" ++ Rev o ++ "^{}") (Root o), ans)])%list).
Proof.
  unfold outcome_of, trace_of, getRevs.
  rewrite run_bind.
  destruct (run handle (hashForRev lib o rev) w) as [[tr out] w1]; cbn [fst snd].
  intros ->; cbn [fst snd].
  rewrite run_bind.
  match goal with
  | |- context [run handle (remoteHashForRef lib ?ref ?root) w1] =>
      destruct (run_remoteHashForRef lib World handle ref root w1)
        as (logged & ans & w2 & ->)
  end.
  exists ans.
  assert (Hloud : forall ref,
             loud (app tr [(Infof 5 "run(%q): %s"
                              [StrArg (Root o);
                               StrArg (fst (cmdForLog lib "git"
                                              ["ls-remote"; "-q"; "origin"; ref]))],
                            logged);
                           (lsRemote lib ref (Root o), ans)])
             = app (loud tr) [(lsRemote lib ref (Root o), ans)]).
  { intros ref; unfold loud; rewrite filter_app; reflexivity. }
  split; intros Hrev.
  - rewrite Hrev; cbn [String.eqb Ascii.eqb Bool.eqb].
    destruct ans as [output [err |]]; unfold commandResult;
      cbn [fst snd run app]; apply Hloud.
  - destruct (String.eqb_spec (Rev o) "HEAD") as [Heq | _]; [ contradiction | ].
    destruct ans as [output [err |]]; unfold commandResult;
      cbn [fst snd run app]; apply Hloud.
Qed.

End Resolver.

(** C7, witness: the configured revision is an abbreviated commit hash. *)
Lemma revIsHash_is_prefix_test_witness :
  exists isHash,
    outcome_of scripted (revIsHash sampleLib sampleOption "9f3c")
      [ok ("9f3c51d0" ++ String strings.nl "")] = Returned (isHash, None)
    /\ (isHash = true <-> exists rest, "9f3c51d0" = "9f3c" ++ rest).
Proof.
  destruct (revIsHash_is_prefix_test sampleLib _ scripted sampleOption "9f3c" "9f3c51d0"
              [ok ("9f3c51d0" ++ String strings.nl "")] eq_refl)
    as (isHash & Hout & _ & Hiff & _).
  exists isHash; split; [ exact Hout | exact Hiff ].
Defined.

(** C10, witness: the steady-state check of [sampleOption], which tracks
    [HEAD] of [master]. *)
Lemma getRevs_remote_ref_witness :
  exists ans,
    loud (trace_of scripted (getRevs sampleLib sampleOption "v1.2")
            [ok ("9f3c" ++ String strings.nl "");
             ok ("77aa" ++ String strings.tab "refs/heads/master")])
    = [(CombinedOutput "/git" "git" ["rev-list"; "-n1"; "v1.2"],
        ok ("9f3c" ++ String strings.nl ""));
       (CombinedOutput "/git" "git" ["ls-remote"; "-q"; "origin"; "refs/heads/master"], ans)].
Proof.
  destruct (getRevs_remote_ref sampleLib _ scripted sampleOption "v1.2" "9f3c"
              [ok ("9f3c" ++ String strings.nl "");
               ok ("77aa" ++ String strings.tab "refs/heads/master")] eq_refl)
    as (ans & Hhead & _).
  exists ans; exact (Hhead eq_refl).
Defined.

(* ------------------------------------------------------------------ *)
(** ** The engine: which path a pass of [sync] takes *)

Section Engine_paths.

Variable lib : GoLib.
Variable World : Type.
Variable handle : Event -> World -> Answer * World.

(** A pass of [sync] starts with [os.Stat] on [.git] under the repository
    locator joined with the published name; the root directory plays no part
    in that name.  When the answer is a not-exist error the next call that
    can fail is the clone; when it is no error at all, the local resolution
    of the configured revision. *)
Lemma sync_first_calls (o : SyncOption) (w : World) :
  exists ans rest,
    loud (trace_of handle (sync lib o) w) =
      (Stat (path.Join [path.Join [Repo o; Dest o]; ".git"]), ans) :: rest
    /\ (os_IsNotExist (snd ans) = true -> Depth o = 0 ->
        exists a rest', rest = (cloneEvent lib o, a) :: rest')
    /\ (snd ans = None ->
        exists a rest', rest = (revList lib (Root o) (Rev o), a) :: rest').
Proof.
  unfold trace_of.
  destruct (run handle (sync lib o) w) as [[tr out] w'] eqn:Hrun.
  cbn [fst snd].
  unfold sync, cloneRepo, getRevs, remoteHashForRef, hashForRev, runCommand in Hrun.
  cbn [run bind call fst snd] in Hrun.
  destruct (handle (Stat _) w) as [[output err] w1].
  exists (output, err).
  destruct err as [[[|] msg | format args] |]; cbn [os_IsNotExist fst snd] in Hrun.
  all: try destruct (Depth o =? 0) eqn:Hdepth.
  all: exec handle lib Hrun.
  all: try match type of Hrun with
         | context [run handle ?p ?w0] =>
             destruct (run handle p w0) as [[? ?] ?]; cbv beta iota zeta in Hrun
         end.
  all: injection Hrun as <- <- <-; cbn [loud filter fst snd is_quiet negb os_IsNotExist].
  all: eexists; split; [ reflexivity | ].
  all: split; [ intros Hne Hd | intros Hok ]; try discriminate.
  all: try (rewrite Hd in Hdepth; discriminate).
  all: eexists; eexists; reflexivity.
Qed.

(** The steady-state path without an update: when the marker is found, both
    resolutions succeed and give the same identifier, the pass makes no other
    call that can fail and returns no error. *)
Lemma sync_no_update_is_read_only (o : SyncOption) (w : World) :
  forall a1 a2 a3 rest,
    loud (trace_of handle (sync lib o) w) =
      (Stat (path.Join [path.Join [Repo o; Dest o]; ".git"]), a1)
        :: (revList lib (Root o) (Rev o), a2)
        :: (lsRemote lib (if (Rev o =? "HEAD")%string
                          then "refs/heads/" ++ Branch o
                          else "refs/tags/" ++ Rev o ++ "^{}") (Root o), a3)
        :: rest ->
    snd a1 = None -> snd a2 = None -> snd a3 = None ->
    strings.Trim (fst a2) strings.nl = nth 0 (strings.Split (fst a3) strings.tab) "" ->
    rest = [] /\ outcome_of handle (sync lib o) w = Returned None.
Proof.
  unfold trace_of, outcome_of.
  destruct (run handle (sync lib o) w) as [[tr out] w'] eqn:Hrun.
  cbn [fst snd].
  unfold sync, cloneRepo, getRevs, remoteHashForRef, hashForRev, runCommand in Hrun.
  intros a1 a2 a3 rest Hloud H1 H2 H3 Hsame.
  exec handle lib Hrun.
  all: try match type of Hrun with
         | context [run handle ?p ?w0] =>
             destruct (run handle p w0) as [[? ?] ?]; cbv beta iota zeta in Hrun
         end.
  all: injection Hrun as <- <- <-; cbn [loud filter fst snd is_quiet negb] in Hloud.
  all: unfold revList, lsRemote in Hloud.
  all: inversion Hloud; subst; cbn [fst snd] in *; try discriminate.
  all: first [ split; reflexivity
             | rewrite Hsame, String.eqb_refl in *; discriminate ].
Qed.
End Engine_paths.

(** C2: [syncedDisk] is what a first, successful pass of [sync] leaves on an
    empty disk.  On it the clone and its [.git] marker exist under the root
    directory [/git] and the pointer [/git/app] is published; yet a pass of
    [sync] for [sampleOption] looks for the marker under the repository
    locator instead, finds nothing there, and takes the first-run path: it
    runs [git clone] again, which fails. *)
Theorem sync_clones_over_existing_copy :
  run onDisk (sync sampleLib sampleOption) emptyDisk
  = (trace_of onDisk (sync sampleLib sampleOption) emptyDisk, Returned None, syncedDisk)
  /\ In "/git/.git" (entries syncedDisk)
  /\ loud (trace_of onDisk (sync sampleLib sampleOption) syncedDisk) =
       [(Stat "https:/example.com/r.git/app/.git",
         notExist "stat https:/example.com/r.git/app/.git: no such file or directory");
        (CombinedOutput "" "git"
           ["clone"; "--no-checkout"; "-b"; "master"; "https://example.com/r.git"; "/git"],
         failed ("fatal: destination path '/git' already exists and is not an empty directory."
                 ++ String strings.nl "")
           "exit status 128")]
  /\ exists err,
      outcome_of onDisk (sync sampleLib sampleOption) syncedDisk = Returned (Some err).
Proof.
  split; [ vm_compute; reflexivity | ].
  split; [ vm_compute; tauto | split; [ vm_compute; reflexivity | ] ].
  eexists; vm_compute; reflexivity.
Qed.

(** C3: two passes of [sync] in a row for [sampleOption], from an empty disk
    and with a remote that does not change.  The first pass clones, builds
    and publishes, and returns no error.  The second one does not reach the
    comparison of revisions: it runs [git clone] again and returns the error
    of that command. *)
Theorem second_sync_clones_again :
  events (loud (trace_of onDisk
                  (first <- sync sampleLib sampleOption ;;
                   second <- sync sampleLib sampleOption ;;
                   Ret (first, second))
                  emptyDisk)) =
    [Stat "https:/example.com/r.git/app/.git";
     CombinedOutput "" "git"
       ["clone"; "--no-checkout"; "-b"; "master"; "https://example.com/r.git"; "/git"];
     CombinedOutput "/git" "git" ["rev-list"; "-n1"; "HEAD"];
     CombinedOutput "/git" "git" ["fetch"; "--tags"; "origin"; "master"];
     CombinedOutput "/git" "git" ["worktree"; "add"; "/git/rev-9f3c"; "origin/master"];
     WriteFile "/git/rev-9f3c/.git"
       ("gitdir: ../.git/worktrees/rev-9f3c" ++ String strings.nl "") 420;
     CombinedOutput "/git/rev-9f3c" "git" ["reset"; "--hard"; "9f3c"];
     EvalSymlinks "/git/app";
     CombinedOutput "/git" "ln" ["-snf"; "rev-9f3c"; "tmp-link"];
     CombinedOutput "/git" "mv" ["-T"; "tmp-link"; "app"];
     Stat "https:/example.com/r.git/app/.git";
     CombinedOutput "" "git"
       ["clone"; "--no-checkout"; "-b"; "master"; "https://example.com/r.git"; "/git"]]
  /\ outcome_of onDisk
       (first <- sync sampleLib sampleOption ;;
        second <- sync sampleLib sampleOption ;;
        Ret (first, second))
       emptyDisk =
     Returned
       (None,
        Some (Errorf "error running command: %v: %q"
                [ErrArg (SysError false "exit status 128");
                 StrArg ("fatal: destination path '/git' already exists and is not an empty directory."
                         ++ String strings.nl "")])).
Proof. split; vm_compute; reflexivity. Qed.

(* ------------------------------------------------------------------ *)
(** ** The poll driver: [main] *)

Lemma int_add_one (n bound : Z) :
  - 2 ^ 63 <= n -> n < bound -> bound < 2 ^ 63 -> int_add n 1 = n + 1.
Proof.
  intros Hlow Hlt Hbound; unfold int_add, wrap64.
  rewrite Z.mod_small; lia.
Qed.

Section Driver.

Variable lib : GoLib.
Variable World : Type.
Variable handle : Event -> World -> Answer * World.

(** Splitting the run of one turn of the loop at the end of its [sync]. *)
Ltac turn Hrun :=
  unfold mainIteration, sleepForever in Hrun; rewrite run_bind in Hrun;
  destruct (run handle (sync lib _) _) as [[trS [[errS |] | codeS]] w1];
  cbn [fst snd] in *.


(** C9: in the turn that follows the first successful [sync]
    ([initialSync] still set), [revIsHash] runs right after [sync].  When it
    answers [true] the process logs that, waits for a signal and exits with
    status 0, whether or not [OneTime] is set; when it answers [false] the
    process exits with status 0 without waiting if [OneTime] is set, and
    otherwise goes on with [initialSync] cleared.  In a turn that starts with
    [initialSync] cleared, the calls made after those of [sync] are logging
    and sleeping only, so [revIsHash] is not run, and [initialSync] stays
    cleared. *)
Theorem main_parks_on_immutable_rev (o : SyncOption) (count : Z) (w : World) :
  let first := {| initialSync := true; failCount := count |} in
  let w1 := world_after handle (sync lib o) w in
  let afterSync := events (trace_of handle (sync lib o) w) in
  let afterCheck := events (trace_of handle (revIsHash lib o (Rev o)) w1) in
  (outcome_of handle (sync lib o) w = Returned None ->
   (outcome_of handle (revIsHash lib o (Rev o)) w1 = Returned (true, None) ->
    outcome_of handle (mainIteration lib o first) w = Exited 0
    /\ events (trace_of handle (mainIteration lib o first) w) =
         (afterSync ++ afterCheck
            ++ [Infof 0 "rev %s appears to be a git hash, no further sync needed"
                  [StrArg (Rev o)];
                AwaitSignal [Interrupt; Kill]])%list)
   /\ (outcome_of handle (revIsHash lib o (Rev o)) w1 = Returned (false, None) ->
       (OneTime o = true ->
        outcome_of handle (mainIteration lib o first) w = Exited 0
        /\ events (trace_of handle (mainIteration lib o first) w)
           = (afterSync ++ afterCheck)%list)
       /\ (OneTime o = false ->
           outcome_of handle (mainIteration lib o first) w =
             Returned {| initialSync := false; failCount := 0 |})))
  /\ (forall st,
        initialSync st = false ->
        (exists tail,
            events (trace_of handle (mainIteration lib o st) w) = (afterSync ++ tail)%list
            /\ forallb is_log_or_sleep tail = true)
        /\ (forall st',
              outcome_of handle (mainIteration lib o st) w = Returned st' ->
              initialSync st' = false)).
Proof.
  intros first w1 afterSync afterCheck.
  subst first w1 afterSync afterCheck.
  unfold outcome_of, trace_of, world_after, events.
  split.
  - intros Hsync.
    destruct (run handle (mainIteration lib o _) w) as [[tr out] w'] eqn:Hrun.
    turn Hrun; try discriminate.
    rewrite run_bind in Hrun; cbn [initialSync] in Hrun; rewrite run_bind in Hrun.
    destruct (run handle (revIsHash lib o (Rev o)) w1) as [[trR outR] w2].
    cbn [fst snd].
    split; [ intros -> | intros ->; split; intros Hone; rewrite Hone in Hrun ].
    all: exec handle lib Hrun; injection Hrun as <- <- <-.
    all: repeat rewrite map_app; cbn [map fst app];
      repeat rewrite app_nil_r; try (split; reflexivity); reflexivity.
  - intros st Hst.
    destruct (run handle (mainIteration lib o st) w) as [[tr out] w'] eqn:Hrun.
    turn Hrun.
    all: try (rewrite run_bind in Hrun); rewrite ?Hst in Hrun; cbn [orb] in Hrun.
    all: exec handle lib Hrun; injection Hrun as <- <- <-.
    all: split;
      [ first [ exists []; split; [ rewrite app_nil_r; reflexivity | reflexivity ]
              | eexists; split;
                [ repeat rewrite map_app; cbn [map fst app]; reflexivity | reflexivity ] ]
      | intros st' Hout;
        first [ discriminate Hout | injection Hout as <-; first [ assumption | reflexivity ] ] ].
Qed.

End Driver.


(** C9, witness: a first pass for a pinned commit, with [OneTime] set. *)
Lemma main_parks_on_immutable_rev_witness :
  outcome_of scripted
    (mainIteration sampleLib pinnedOption {| initialSync := true; failCount := 0 |})
    (firstPassScript "9f3c51d0") = Exited 0
  /\ events (trace_of scripted
               (mainIteration sampleLib pinnedOption {| initialSync := true; failCount := 0 |})
               (firstPassScript "9f3c51d0")) =
     (events (trace_of scripted (sync sampleLib pinnedOption) (firstPassScript "9f3c51d0"))
        ++ events (trace_of scripted (revIsHash sampleLib pinnedOption "9f3c51d0")
                     (world_after scripted (sync sampleLib pinnedOption)
                        (firstPassScript "9f3c51d0")))
        ++ [Infof 0 "rev %s appears to be a git hash, no further sync needed"
              [StrArg "9f3c51d0"];
            AwaitSignal [Interrupt; Kill]])%list.
Proof.
  refine (proj1 (proj1 (main_parks_on_immutable_rev sampleLib _ scripted pinnedOption 0
                          (firstPassScript "9f3c51d0")) _) _).
  - vm_compute; reflexivity.
  - vm_compute; reflexivity.
Defined.
(* ------------------------------------------------------------------ *)
(** * Further properties of the engine and of the start-up *)


(* ------------------------------------------------------------------ *)
(** ** Commands and their results *)

Section Commands.

Variable lib : GoLib.
Variable World : Type.
Variable handle : Event -> World -> Answer * World.

(** X1: [runCommand] starts one child process.  It gets the caller's
    arguments unchanged when none of them contains a space, a tab or a
    newline; an argument that contains one reaches the child in the quoted
    form [cmdForLog] wrote over it for the log line. *)
Theorem runCommand_passes_logged_arguments
    (cwd command : string) (args : list string) (w : World) :
  exists ans executed,
    loud (trace_of handle (runCommand lib cwd command args) w)
      = [(CombinedOutput cwd command executed, ans)]
    /\ List.length executed = List.length args
    /\ (forallb (fun a => negb (strings.ContainsAny a strings.blanks)) args = true ->
        executed = args)
    /\ (forall i a,
          nth_error args i = Some a -> strings.ContainsAny a strings.blanks = true ->
          nth_error executed i = Some (Quote lib a)).
Proof.
  destruct (run_runCommand lib World handle cwd command args w) as (logged & ans & w' & Hrun).
  exists ans, (execArgs lib command args).
  unfold trace_of; rewrite Hrun; cbn [fst snd].
  split; [ reflexivity | split; [ | split ] ].
  - unfold execArgs, cmdForLog; cbn [snd]; apply length_map.
  - apply execArgs_plain.
  - intros i a Hnth Hblank.
    unfold execArgs, cmdForLog; cbn [snd].
    rewrite nth_error_map, Hnth; cbn [option_map]; rewrite Hblank; reflexivity.
Qed.

End Commands.

(** X1, witness: a commit message with a space, handed to [git]. *)
Lemma runCommand_passes_logged_arguments_witness :
  exists ans executed,
    loud (trace_of scripted (runCommand sampleLib "/git" "git" ["commit"; "-m"; "two words"])
            [ok ""])
    = [(CombinedOutput "/git" "git" executed, ans)]
    /\ nth_error executed 2 = Some (Quote sampleLib "two words").
Proof.
  destruct (runCommand_passes_logged_arguments sampleLib _ scripted
              "/git" "git" ["commit"; "-m"; "two words"] [ok ""])
    as (ans & executed & Htrace & _ & _ & Hquoted).
  exists ans, executed; split; [ exact Htrace | ].
  exact (Hquoted 2%nat "two words" eq_refl eq_refl).
Defined.


(* ------------------------------------------------------------------ *)
(** ** What the resolver returns *)

Lemma free_of_cons (c a : ascii) (s : string) :
  free_of c (String a s) <-> a <> c /\ free_of c s.
Proof.
  unfold free_of; split.
  - intros H; split.
    + intros ->; exact (H "" s eq_refl).
    + intros x y ->; exact (H (String a x) y eq_refl).
  - intros [Hne Hs] x y Heq.
    destruct x as [| a' x]; cbn in Heq; injection Heq as Ha Hrest.
    + exact (Hne Ha).
    + exact (Hs x y Hrest).
Qed.

Lemma free_of_empty (c : ascii) : free_of c "".
Proof. intros [| a x] y; discriminate. Qed.

Lemma TrimLeft_not_start (c : ascii) (s : string) :
  ~ starts_with c (strings.TrimLeft s c).
Proof.
  induction s as [| a s IH]; cbn [strings.TrimLeft].
  - intros [t H]; discriminate.
  - destruct (Ascii.eqb_spec a c) as [-> | Hne]; [ exact IH | ].
    intros [t H]; injection H as H _; contradiction.
Qed.

Lemma TrimRight_start (c : ascii) (s : string) :
  ~ starts_with c s -> ~ starts_with c (strings.TrimRight s c).
Proof.
  destruct s as [| a s]; cbn [strings.TrimRight]; [ auto | ].
  intros Hs [t H]; apply Hs.
  destruct (strings.TrimRight s c).
  - destruct (Ascii.eqb_spec a c) as [-> | Hne]; [ discriminate | ].
    injection H as H _; contradiction.
  - injection H as -> _; exists s; reflexivity.
Qed.

Lemma TrimRight_not_end (c : ascii) (s : string) :
  ~ ends_with c (strings.TrimRight s c).
Proof.
  induction s as [| a s IH]; cbn [strings.TrimRight].
  - intros [[| b t] H]; discriminate.
  - destruct (strings.TrimRight s c) as [| b r] eqn:Hr.
    + destruct (Ascii.eqb_spec a c) as [-> | Hne].
      * intros [[| b t] H]; discriminate.
      * intros [[| b t] H]; cbn in H; inversion H; subst.
        -- contradiction.
        -- destruct t; discriminate.
    + intros [[| b' t] H]; cbn in H; inversion H; subst.
      apply IH; exists t; assumption.
Qed.

Lemma TrimRight_line (c : ascii) (s : string) :
  free_of c s -> strings.TrimRight (s ++ String c "") c = s.
Proof.
  induction s as [| a s IH]; intros Hfree.
  - cbn; rewrite Ascii.eqb_refl; reflexivity.
  - apply free_of_cons in Hfree; destruct Hfree as [Hne Hfree].
    cbn [append strings.TrimRight]; rewrite (IH Hfree).
    destruct s; [ | reflexivity ].
    destruct (Ascii.eqb_spec a c); [ contradiction | reflexivity ].
Qed.

Lemma Trim_line (c : ascii) (s : string) :
  free_of c s -> strings.Trim (s ++ String c "") c = s.
Proof.
  intros Hfree; unfold strings.Trim.
  destruct s as [| a s].
  - cbn; rewrite Ascii.eqb_refl; reflexivity.
  - pose proof (proj1 (free_of_cons c a s) Hfree) as [Hne _].
    cbn [append strings.TrimLeft].
    destruct (Ascii.eqb_spec a c); [ contradiction | ].
    exact (TrimRight_line c (String a s) Hfree).
Qed.

Lemma Split_first_free (sep : ascii) (s first : string) (rest : list string) :
  strings.Split s sep = first :: rest -> free_of sep first.
Proof.
  unfold strings.Split.
  revert first rest; induction s as [| a s IH]; intros first rest H.
  - injection H as <- _; apply free_of_empty.
  - destruct (Ascii.eqb_spec a sep) as [-> | Hne].
    + injection H as <- _; apply free_of_empty.
    + destruct ((fix Split (s0 : string) (sep0 : ascii) {struct s0} : list string :=
                   match s0 with
                   | "" => [""]
                   | String c s' =>
                       if Ascii.eqb c sep0 then "" :: Split s' sep0
                       else match Split s' sep0 with
                            | [] => [String c ""]
                            | piece :: rest0 => String c piece :: rest0
                            end
                   end) s sep) as [| piece rest'] eqn:Hs.
      * injection H as <- _; apply free_of_cons; split; [ exact Hne | apply free_of_empty ].
      * injection H as <- _; apply free_of_cons; split; [ exact Hne | ].
        exact (IH piece rest' eq_refl).
Qed.

Lemma Split_field (sep : ascii) (field rest : string) :
  free_of sep field ->
  strings.Split (field ++ String sep rest) sep = field :: strings.Split rest sep.
Proof.
  unfold strings.Split.
  induction field as [| a field IH]; intros Hfree.
  - cbn; rewrite Ascii.eqb_refl; reflexivity.
  - apply free_of_cons in Hfree; destruct Hfree as [Hne Hfree].
    cbn [append]; cbn; destruct (Ascii.eqb_spec a sep); [ contradiction | ].
    cbn in IH; rewrite (IH Hfree); reflexivity.
Qed.

Section Resolved.

Variable lib : GoLib.
Variable World : Type.
Variable handle : Event -> World -> Answer * World.

(** X2: the identifier [hashForRev] returns never begins or ends with a
    newline, and when [git rev-list] prints one line it is that line without
    its newline. *)
Theorem hashForRev_returns_trimmed_line (o : SyncOption) (rev : string) (w : World) :
  exists ans,
    loud (trace_of handle (hashForRev lib o rev) w) = [(revList lib (Root o) rev, ans)]
    /\ (forall hash,
          outcome_of handle (hashForRev lib o rev) w = Returned (hash, None) ->
          ~ starts_with strings.nl hash /\ ~ ends_with strings.nl hash)
    /\ (forall line,
          snd ans = None -> free_of strings.nl line ->
          fst ans = line ++ String strings.nl "" ->
          outcome_of handle (hashForRev lib o rev) w = Returned (line, None)).
Proof.
  destruct (run_hashForRev lib World handle o rev w) as (logged & ans & w' & Hrun).
  exists ans; unfold trace_of, outcome_of; rewrite Hrun; cbn [fst snd].
  split; [ reflexivity | split ].
  - intros hash Hout; unfold commandResult in Hout.
    destruct (snd ans); [ discriminate Hout | ].
    injection Hout as <-; unfold strings.Trim; split.
    + apply TrimRight_start, TrimLeft_not_start.
    + apply TrimRight_not_end.
  - intros line Hok Hfree Hline; rewrite Hok, Hline, (Trim_line _ _ Hfree); reflexivity.
Qed.

(** X3: the identifier [remoteHashForRef] returns holds no tab, and when
    [git ls-remote] prints [<hash><tab><ref>...] it is that hash. *)
Theorem remoteHashForRef_returns_first_field (ref gitRoot : string) (w : World) :
  exists ans,
    loud (trace_of handle (remoteHashForRef lib ref gitRoot) w) = [(lsRemote lib ref gitRoot, ans)]
    /\ (forall hash,
          outcome_of handle (remoteHashForRef lib ref gitRoot) w = Returned (hash, None) ->
          free_of strings.tab hash)
    /\ (forall hash rest,
          snd ans = None -> free_of strings.tab hash ->
          fst ans = hash ++ String strings.tab rest ->
          outcome_of handle (remoteHashForRef lib ref gitRoot) w = Returned (hash, None)).
Proof.
  destruct (run_remoteHashForRef lib World handle ref gitRoot w) as (logged & ans & w' & Hrun).
  exists ans; unfold trace_of, outcome_of; rewrite Hrun; cbn [fst snd].
  split; [ reflexivity | split ].
  - intros hash Hout; unfold commandResult in Hout.
    destruct (snd ans); [ discriminate Hout | ].
    injection Hout as <-.
    destruct (Split_first_piece (fst ans) strings.tab) as (first & rest & Hsplit).
    rewrite Hsplit; cbn [nth]; exact (Split_first_free _ _ _ _ Hsplit).
  - intros hash rest Hok Hfree Hline.
    rewrite Hok, Hline, (Split_field _ _ _ Hfree); reflexivity.
Qed.

End Resolved.

Ltac free_of_chars :=
  repeat (apply free_of_cons; split; [ discriminate | ]); apply free_of_empty.

(** X2, witness: [git rev-list] prints one line. *)
Lemma hashForRev_returns_trimmed_line_witness :
  outcome_of scripted (hashForRev sampleLib sampleOption "HEAD")
    [ok ("9f3c" ++ String strings.nl "")] = Returned ("9f3c", None).
Proof.
  destruct (hashForRev_returns_trimmed_line sampleLib _ scripted sampleOption "HEAD"
              [ok ("9f3c" ++ String strings.nl "")])
    as (ans & Htrace & _ & Hline).
  vm_compute in Htrace; injection Htrace as <-.
  apply Hline; [ reflexivity | free_of_chars | reflexivity ].
Defined.

(** X3, witness: [git ls-remote] prints the hash and the ref. *)
Lemma remoteHashForRef_returns_first_field_witness :
  outcome_of scripted (remoteHashForRef sampleLib "refs/heads/master" "/git")
    [ok ("9f3c" ++ String strings.tab ("refs/heads/master" ++ String strings.nl ""))]
  = Returned ("9f3c", None).
Proof.
  destruct (remoteHashForRef_returns_first_field sampleLib _ scripted
              "refs/heads/master" "/git"
              [ok ("9f3c" ++ String strings.tab ("refs/heads/master" ++ String strings.nl ""))])
    as (ans & Htrace & _ & Hfield).
  vm_compute in Htrace; injection Htrace as <-.
  apply (Hfield "9f3c" ("refs/heads/master" ++ String strings.nl ""));
    [ reflexivity | free_of_chars | reflexivity ].
Defined.


(* ------------------------------------------------------------------ *)
(** ** What a pass of the engine never does *)

Lemma confined_bind {A B : Type} (P : Event -> Prop) (p : Prog A) (f : A -> Prog B) :
  confined P p -> (forall a, confined P (f a)) -> confined P (bind p f).
Proof.
  intros Hp Hf; induction p as [a | code | e k IH]; cbn in *.
  - apply Hf.
  - contradiction.
  - destruct Hp as [He Hk]; split; [ exact He | intros ans; apply IH, Hk ].
Qed.

Lemma confined_run {World : Type} (handle : Event -> World -> Answer * World)
    {A : Type} (P : Event -> Prop) (p : Prog A) :
  confined P p ->
  forall w,
    (exists a, outcome_of handle p w = Returned a)
    /\ Forall (fun x => P (fst x)) (trace_of handle p w).
Proof.
  unfold outcome_of, trace_of.
  induction p as [a | code | e k IH]; cbn; intros Hp w.
  - split; [ eauto | constructor ].
  - contradiction.
  - destruct Hp as [He Hk].
    destruct (handle e w) as [ans w1].
    destruct (IH ans (Hk ans) w1) as [Hout Htr].
    destruct (run handle (k ans) w1) as [[tr out] w2]; cbn [fst snd] in *.
    split; [ exact Hout | constructor; [ exact He | exact Htr ] ].
Qed.

Lemma runCommand_confined (lib : GoLib) (P : Event -> Prop)
    (cwd command : string) (args : list string) :
  (forall v format a, P (Infof v format a)) ->
  P (CombinedOutput cwd command (execArgs lib command args)) ->
  confined P (runCommand lib cwd command args).
Proof.
  intros Hlog Hrun; unfold runCommand; cbn.
  split; [ apply Hlog | intros _ ].
  split; [ exact Hrun | intros [output [err |]]; exact I ].
Qed.

(** Going through a program whose calls are all allowed. *)
Ltac confine :=
  repeat first
    [ exact I
    | assumption
    | match goal with H : forall _, confined _ _ |- confined _ _ => solve [ apply H ] end
    | match goal with H : forall _ _ _, confined _ _ |- confined _ _ => solve [ apply H ] end
    | apply runCommand_confined
    | apply confined_bind
    | intro
    | progress cbn [confined call]
    | match goal with
      | |- confined _ (match ?x with _ => _ end) => destruct x
      | |- confined _ _ => fail 1
      | |- _ /\ _ => split
      | |- _ => solve [ unfold execArgs, cmdForLog; cbn; tauto ]
      end ].

Section Never.

Variable lib : GoLib.

Lemma updateSymlink_engine (gitRoot link newDir : string) :
  confined engineCall (updateSymlink lib gitRoot link newDir).
Proof. unfold updateSymlink. confine. Qed.

Lemma addWorktreeAndSwap_engine (o : SyncOption) (hash : string) :
  confined engineCall (addWorktreeAndSwap lib o hash).
Proof.
  pose proof updateSymlink_engine as Hpublish.
  unfold addWorktreeAndSwap. confine.
Qed.

Lemma sync_engine (o : SyncOption) : confined engineCall (sync lib o).
Proof.
  pose proof (addWorktreeAndSwap_engine o) as Hbuild.
  unfold sync, cloneRepo, getRevs, remoteHashForRef, hashForRev. confine.
Qed.

Lemma revIsHash_engine (o : SyncOption) (rev : string) :
  confined engineCall (revIsHash lib o rev).
Proof. unfold revIsHash, hashForRev. confine. Qed.

Lemma updateSymlink_no_clone (gitRoot link newDir : string) :
  confined (fun e => ~ isClone e) (updateSymlink lib gitRoot link newDir).
Proof. unfold updateSymlink. confine. Qed.

Lemma addWorktreeAndSwap_no_clone (o : SyncOption) (hash : string) :
  confined (fun e => ~ isClone e) (addWorktreeAndSwap lib o hash).
Proof.
  pose proof updateSymlink_no_clone as Hpublish.
  unfold addWorktreeAndSwap. confine.
Qed.

End Never.


Section Passes.

Variable lib : GoLib.
Variable World : Type.
Variable handle : Event -> World -> Answer * World.

(** X4: a pass of [sync] always comes back to its caller: whatever the
    environment answers, it does not end the process, and it neither sleeps,
    nor waits for a signal, nor logs an error. *)
Theorem sync_returns_to_caller (o : SyncOption) (w : World) :
  (exists result, outcome_of handle (sync lib o) w = Returned result)
  /\ Forall (fun x => engineCall (fst x)) (trace_of handle (sync lib o) w).
Proof. exact (confined_run handle engineCall _ (sync_engine lib o) w). Qed.

(** X5: the first call of a pass of [sync] is the [os.Stat] of the marker,
    and the pass runs [git clone] exactly when that call answers with a
    not-exist error. *)
Theorem sync_clones_iff_marker_missing (o : SyncOption) (w : World) :
  exists ans rest,
    trace_of handle (sync lib o) w =
      (Stat (path.Join [path.Join [Repo o; Dest o]; ".git"]), ans) :: rest
    /\ ((exists x, In x rest /\ isClone (fst x)) <-> os_IsNotExist (snd ans) = true).
Proof.
  unfold trace_of, sync; cbn [run bind call].
  destruct (handle (Stat _) w) as [[output err] w1]; cbn [fst snd].
  match goal with
  | |- context [run handle ?body w1] =>
      destruct (run handle body w1) as [[rest out] w2] eqn:Hrun
  end.
  exists (output, err), rest; split; [ reflexivity | ]; cbn [fst snd].
  destruct (os_IsNotExist err) eqn:Hmissing.
  - split; [ reflexivity | intros _ ].
    unfold cloneRepo, runCommand in Hrun; cbn [run bind call fst snd] in Hrun.
    destruct (handle (Infof 5 _ _) w1) as [logged w3].
    destruct (handle (CombinedOutput _ _ _) w3) as [cloned w4].
    match type of Hrun with
    | context [run handle ?p w4] => destruct (run handle p w4) as [[? ?] ?]
    end.
    injection Hrun as <- _ _.
    eexists; split; [ right; left; reflexivity | ].
    unfold cmdForLog; destruct (Depth o =? 0); cbn; exact I.
  - split; [ intros (x & Hin & Hclone) | discriminate ].
    exfalso.
    assert (Hbody : Forall (fun x => ~ isClone (fst x)) rest).
    { pose proof (addWorktreeAndSwap_no_clone lib o) as Hbuild.
      match type of Hrun with
      | run handle ?body w1 = _ =>
          assert (Hconfined : confined (fun e => ~ isClone e) body)
      end.
      { unfold getRevs, remoteHashForRef, hashForRev; confine. }
      pose proof (proj2 (confined_run handle _ _ Hconfined w1)) as Hall.
      unfold trace_of in Hall; rewrite Hrun in Hall; exact Hall. }
    rewrite Forall_forall in Hbody; exact (Hbody x Hin Hclone).
Qed.

End Passes.


(* ------------------------------------------------------------------ *)
(** ** More on publishing *)

Section Publishing.

Variable lib : GoLib.
Variable World : Type.
Variable handle : Event -> World -> Answer * World.

(** X6: [updateSymlink] starts by resolving the pointer.  The only directory
    it ever removes is the one that call returned, and never the empty name;
    and once the rename has succeeded it does remove that directory when its
    name is not empty, be it the directory just published or not. *)
Theorem updateSymlink_removes_previous_target (gitRoot link newDir : string) (w : World) :
  exists prev rest,
    trace_of handle (updateSymlink lib gitRoot link newDir) w
      = (recordEvent gitRoot link, prev) :: rest
    /\ (forall x dir,
          In x rest -> fst x = RemoveAll dir -> dir = fst prev /\ dir <> "")
    /\ (forall y,
          In y rest -> renamed lib gitRoot link y -> fst prev <> "" ->
          exists a, In (RemoveAll (fst prev), a) rest).
Proof.
  unfold trace_of.
  destruct (run handle (updateSymlink lib gitRoot link newDir) w) as [[tr out] w'] eqn:Hrun.
  cbn [fst snd].
  unfold updateSymlink, runCommand in Hrun.
  exec handle lib Hrun; injection Hrun as <- <- <-.
  all: eexists; eexists; split; [ reflexivity | ]; cbn [fst snd].
  all: split;
    [ intros x dir Hin Hrm; each_entry Hin; cbn [fst] in Hrm;
      try discriminate Hrm; injection Hrm as <-;
      (split; [ reflexivity | intros ->; discriminate ])
    | intros y Hin Hren Hprev;
      first [ eexists; pick_entry
            | exfalso; each_entry Hin; no_rename Hren
            | exfalso;
              match goal with
              | Hlen : (0 <? String.length ?s)%nat = false |- _ =>
                  destruct s; [ apply Hprev; reflexivity | discriminate Hlen ]
              end ] ].
Qed.





End Publishing.

(** X6, witness: the pointer already resolves to the directory that is
    published again. *)
Lemma updateSymlink_removes_previous_target_witness :
  exists a,
    In (RemoveAll "/git/rev-9f3c", a)
      (trace_of scripted (updateSymlink sampleLib "/git" "app" "/git/rev-9f3c")
         [ok "/git/rev-9f3c"; ok ""; ok ""; ok ""; ok ""]).
Proof.
  destruct (updateSymlink_removes_previous_target sampleLib _ scripted
              "/git" "app" "/git/rev-9f3c"
              [ok "/git/rev-9f3c"; ok ""; ok ""; ok ""; ok ""])
    as (prev & rest & Htrace & _ & Hremoved).
  rewrite Htrace.
  vm_compute in Htrace; injection Htrace as <- <-.
  destruct (Hremoved (renameEvent sampleLib "/git" "app", ok "")) as [a Ha].
  - vm_compute; tauto.
  - split; reflexivity.
  - discriminate.
  - exists a; right; exact Ha.
Defined.



(* ------------------------------------------------------------------ *)
(** ** Building before publishing *)

Lemma split_after_prefix {X : Type} (Q : X -> Prop) (l1 l2 pre post : list X) (x : X) :
  Forall (fun y => ~ Q y) l1 -> (l1 ++ l2)%list = (pre ++ x :: post)%list -> Q x ->
  exists pre', pre = (l1 ++ pre')%list.
Proof.
  revert pre; induction l1 as [| z l1 IH]; intros pre Hall Heq HQ.
  - exists pre; reflexivity.
  - inversion Hall as [| ? ? Hz Hl1]; subst.
    destruct pre as [| z' pre]; cbn in Heq; injection Heq as -> Heq.
    + contradiction.
    + destruct (IH pre Hl1 Heq HQ) as [pre' ->]; exists pre'; reflexivity.
Qed.

Lemma built_app (lib : GoLib) (o : SyncOption) (hash : string) (tr more : Trace) :
  built lib o hash tr -> built lib o hash (app tr more).
Proof.
  unfold built.
  intros ([a Ha] & [b Hb] & (d & c & Hc) & [e He] & Hmode).
  split; [ exists a; apply in_or_app; left; exact Ha | ].
  split; [ exists b; apply in_or_app; left; exact Hb | ].
  split; [ exists d, c; apply in_or_app; left; exact Hc | ].
  split; [ exists e; apply in_or_app; left; exact He | ].
  intros Hne; destruct (Hmode Hne) as [f Hf]; exists f; apply in_or_app; left; exact Hf.
Qed.

Section BuildThenPublish.

Variable lib : GoLib.
Variable World : Type.
Variable handle : Event -> World -> Answer * World.

Ltac untouched :=
  repeat (apply Forall_cons;
          [ cbn [fst touchesPublished]; intuition discriminate | ]);
  apply Forall_nil.

(** X8: in every run of [addWorktreeAndSwap], a call that reads or changes
    what is published comes only after the fetch, the creation of the
    worktree, the rewriting of its [.git] file and the hard reset have all
    succeeded, and after the [chmod] as well when a mode is configured. *)
Theorem addWorktreeAndSwap_builds_before_publishing
    (o : SyncOption) (hash : string) (w : World) :
  forall pre x post,
    trace_of handle (addWorktreeAndSwap lib o hash) w = (pre ++ x :: post)%list ->
    touchesPublished (fst x) ->
    built lib o hash pre.
Proof.
  unfold trace_of.
  destruct (run handle (addWorktreeAndSwap lib o hash) w) as [[tr out] w'] eqn:Hrun.
  cbn [fst snd].
  unfold addWorktreeAndSwap, runCommand in Hrun.
  exec handle lib Hrun.
  all: intros pre x post Heq Htouch.
  all: try (injection Hrun as <- <- <-; exfalso;
            assert (Hin : In x (app pre (x :: post))) by (apply in_elt);
            rewrite <- Heq in Hin; clear Heq; each_entry Hin;
            cbn [fst touchesPublished] in Htouch; intuition discriminate).
  all: match type of Hrun with
       | context [run handle ?p ?w1] =>
           let trP := fresh "trP" in
           destruct (run handle p w1) as [[trP ?] ?];
           cbv beta iota zeta in Hrun; injection Hrun as <- <- <-;
           match type of Heq with
           | ?l = _ =>
               let l1 := prefix_of l trP in
               change l with (l1 ++ trP)%list in Heq;
               destruct (split_after_prefix (fun y => touchesPublished (fst y))
                           l1 trP pre post x) as [pre' ->];
               [ untouched | exact Heq | exact Htouch | ]
           end
       end.
  all: apply built_app; unfold built, fetchEvent, worktreeAddEvent, resetEvent, chmodEvent,
         worktreeOf.
  all: repeat split;
    try (intros Hmode;
         try (exfalso; apply Hmode; apply Z.eqb_eq; assumption));
    repeat eexists; pick_entry.
Qed.

End BuildThenPublish.

(** X8, witness: the ten calls before the pointer is resolved. *)
Lemma addWorktreeAndSwap_builds_before_publishing_witness :
  built sampleLib sampleOption "9f3c"
    (firstn 10 (trace_of scripted (addWorktreeAndSwap sampleLib sampleOption "9f3c")
                  [ok ""; ok ""; ok ""; ok "";
                   notExist "lstat /git/app: no such file or directory"; ok ""; ok ""])).
Proof.
  apply (addWorktreeAndSwap_builds_before_publishing sampleLib _ scripted sampleOption "9f3c"
           [ok ""; ok ""; ok ""; ok "";
            notExist "lstat /git/app: no such file or directory"; ok ""; ok ""]
           _
           (EvalSymlinks "/git/app", notExist "lstat /git/app: no such file or directory")
           (skipn 11 (trace_of scripted (addWorktreeAndSwap sampleLib sampleOption "9f3c")
                        [ok ""; ok ""; ok ""; ok "";
                         notExist "lstat /git/app: no such file or directory"; ok ""; ok ""]))).
  - vm_compute; reflexivity.
  - exact I.
Defined.


(* ------------------------------------------------------------------ *)
(** ** The loop of [main] over several turns *)

Section Loop.

Variable lib : GoLib.
Variable World : Type.
Variable handle : Event -> World -> Answer * World.

Lemma outcome_bind {A B : Type} (p : Prog A) (f : A -> Prog B) (w : World) :
  outcome_of handle (bind p f) w =
    match outcome_of handle p w with
    | Returned a => outcome_of handle (f a) (world_after handle p w)
    | Exited code => Exited code
    end.
Proof.
  unfold outcome_of, world_after; rewrite run_bind.
  destruct (run handle p w) as [[tr [a | code]] w1]; cbn [fst snd]; [ | reflexivity ].
  destruct (run handle (f a) w1) as [[tr2 out] w2]; reflexivity.
Qed.

(** A turn in steady state whose [sync] fails. *)
Lemma mainIteration_steady_failure (o : SyncOption) (count : Z) (w : World) (err : error) :
  outcome_of handle (sync lib o) w = Returned (Some err) ->
  outcome_of handle (mainIteration lib o {| initialSync := false; failCount := count |}) w =
    if MaxSyncFailures o <=? count then Exited 1
    else Returned {| initialSync := false; failCount := int_add count 1 |}.
Proof.
  intros Hsync; unfold mainIteration; rewrite outcome_bind, Hsync.
  cbn [initialSync failCount orb].
  destruct (MaxSyncFailures o <=? count); unfold outcome_of; cbn [run bind call].
  all: repeat match goal with
         | |- context [handle ?e ?w0] => destruct (handle e w0) as [? ?]
         end; reflexivity.
Qed.

(** How a turn can end: with status 1, with status 0 in the first turn only,
    or by going on in steady state. *)
Lemma mainIteration_ends (o : SyncOption) (st : LoopState) (w : World) :
  match outcome_of handle (mainIteration lib o st) w with
  | Exited code => code = 1 \/ (code = 0 /\ initialSync st = true)
  | Returned st' => initialSync st' = false
  end.
Proof.
  unfold outcome_of.
  destruct (run handle (mainIteration lib o st) w) as [[tr out] w'] eqn:Hrun.
  cbn [fst snd].
  unfold mainIteration, sleepForever in Hrun; rewrite run_bind in Hrun.
  destruct (confined_run handle engineCall _ (sync_engine lib o) w) as [[result Hsync] _].
  unfold outcome_of in Hsync.
  destruct (run handle (sync lib o) w) as [[trS outS] w1]; cbn [fst snd] in Hsync; subst outS.
  destruct result as [err |].
  - destruct st as [[|] count]; cbn [initialSync failCount orb] in *.
    + exec handle lib Hrun; injection Hrun as <- <- <-; left; reflexivity.
    + destruct (MaxSyncFailures o <=? count); cbn [orb] in Hrun;
        exec handle lib Hrun; injection Hrun as <- <- <-; [ left | ]; reflexivity.
  - rewrite run_bind in Hrun.
    destruct st as [[|] count]; cbn [initialSync failCount] in *.
    + rewrite run_bind in Hrun.
      destruct (confined_run handle engineCall _ (revIsHash_engine lib o (Rev o)) w1)
        as [[[isHash errR] Hcheck] _].
      unfold outcome_of in Hcheck.
      destruct (run handle (revIsHash lib o (Rev o)) w1) as [[trR outR] w2];
        cbn [fst snd] in Hcheck; subst outR.
      destruct errR as [errR |]; exec handle lib Hrun; injection Hrun as <- <- <-;
        first [ left; reflexivity | right; split; reflexivity | reflexivity ].
    + exec handle lib Hrun; injection Hrun as <- <- <-; reflexivity.
Qed.

(** X9: once a sync has succeeded, [main] goes on through exactly
    [MaxSyncFailures] failed syncs in a row, counting them, and the next
    failure in a row ends the process with status 1. *)
Theorem main_tolerates_the_budget (o : SyncOption) (w : World) :
  0 <= MaxSyncFailures o < 2 ^ 63 ->
  (forall w', exists err, outcome_of handle (sync lib o) w' = Returned (Some err)) ->
  outcome_of handle
    (mainLoop lib (Z.to_nat (MaxSyncFailures o)) o {| initialSync := false; failCount := 0 |}) w
    = Returned {| initialSync := false; failCount := MaxSyncFailures o |}
  /\ outcome_of handle
       (mainLoop lib (S (Z.to_nat (MaxSyncFailures o))) o
          {| initialSync := false; failCount := 0 |}) w
     = Exited 1.
Proof.
  intros Hmax Hfail.
  assert (Hgo : forall k count w0,
             0 <= count -> count + Z.of_nat k <= MaxSyncFailures o ->
             outcome_of handle
               (mainLoop lib k o {| initialSync := false; failCount := count |}) w0
             = Returned {| initialSync := false; failCount := count + Z.of_nat k |}).
  { induction k as [| k IH]; intros count w0 Hlow Hle.
    - cbn [mainLoop Z.of_nat]; rewrite Z.add_0_r; reflexivity.
    - cbn [mainLoop]; rewrite outcome_bind.
      destruct (Hfail w0) as [err Herr].
      rewrite (mainIteration_steady_failure o count w0 err Herr).
      destruct (Z.leb_spec (MaxSyncFailures o) count) as [Hge | Hlt]; [ lia | ].
      rewrite (int_add_one count (MaxSyncFailures o)) by lia.
      rewrite IH by lia.
      do 2 f_equal; lia. }
  assert (Hstop : forall k count w0,
             0 <= count -> count + Z.of_nat k = MaxSyncFailures o ->
             outcome_of handle
               (mainLoop lib (S k) o {| initialSync := false; failCount := count |}) w0
             = Exited 1).
  { induction k as [| k IH]; intros count w0 Hlow Heq;
      cbn [mainLoop]; rewrite outcome_bind;
      destruct (Hfail w0) as [err Herr];
      rewrite (mainIteration_steady_failure o count w0 err Herr);
      destruct (Z.leb_spec (MaxSyncFailures o) count) as [Hge | Hlt];
      try reflexivity; try lia.
    rewrite (int_add_one count (MaxSyncFailures o)) by lia.
    apply IH; lia. }
  split.
  - rewrite (Hgo (Z.to_nat (MaxSyncFailures o)) 0 w) by lia.
    do 2 f_equal; lia.
  - apply Hstop; lia.
Qed.

(** X10: once [setupFlags] has returned, [main] ends the process with
    status 0 or 1 only; and the loop in steady state (after the first turn)
    ends it with status 1 only, and stays in steady state as long as it
    runs. *)
Theorem main_exit_status (o : SyncOption) :
  (forall n st w,
      initialSync st = false ->
      match outcome_of handle (mainLoop lib n o st) w with
      | Exited code => code = 1
      | Returned st' => initialSync st' = false
      end)
  /\ (forall n argv w,
        match outcome_of handle (main lib n argv o) w with
        | Exited code => code = 0 \/ code = 1
        | Returned _ => True
        end).
Proof.
  assert (Hloop : forall n st w,
             match outcome_of handle (mainLoop lib n o st) w with
             | Exited code => code = 1 \/ (code = 0 /\ initialSync st = true)
             | Returned st' => initialSync st = false -> initialSync st' = false
             end).
  { induction n as [| n IH]; intros st w; cbn [mainLoop].
    - unfold outcome_of; cbn; auto.
    - rewrite outcome_bind.
      pose proof (mainIteration_ends o st w) as Hend.
      destruct (outcome_of handle (mainIteration lib o st) w) as [st' | code'];
        [ | exact Hend ].
      specialize (IH st' (world_after handle (mainIteration lib o st) w)).
      destruct (outcome_of handle (mainLoop lib n o st') _) as [st'' | code].
      + intros _; exact (IH Hend).
      + destruct IH as [H1 | [_ Hinit]]; [ left; exact H1 | congruence ]. }
  split.
  - intros n st w Hst.
    specialize (Hloop n st w).
    destruct (outcome_of handle (mainLoop lib n o st) w) as [st' | code].
    + exact (Hloop Hst).
    + destruct Hloop as [H1 | [_ Hinit]]; [ exact H1 | congruence ].
  - intros n argv w.
    unfold main; rewrite outcome_bind.
    unfold outcome_of at 1; cbn [run call].
    destruct (handle (Infof 0 "starting up: %q" [ArgvArg argv]) w) as [a w0];
      cbn [fst snd].
    specialize (Hloop n {| initialSync := true; failCount := 0 |}
                  (world_after handle (call (Infof 0 "starting up: %q" [ArgvArg argv])) w)).
    destruct (outcome_of handle (mainLoop lib n o _) _) as [st' | code]; [ exact I | ].
    destruct Hloop as [H1 | [H0 _]]; [ right | left ]; assumption.
Qed.

End Loop.

(** X9, witness: a budget of three failures and a host that is down. *)
Lemma main_tolerates_the_budget_witness :
  outcome_of unreachable
    (mainLoop sampleLib 4 sampleOption {| initialSync := false; failCount := 0 |}) tt
  = Exited 1.
Proof.
  refine (proj2 (main_tolerates_the_budget sampleLib unit unreachable sampleOption tt _ _)).
  - cbn; lia.
  - intros []; eexists; reflexivity.
Defined.

(** X10, witness: the same run, in steady state from its start. *)
Lemma main_exit_status_witness :
  match outcome_of unreachable
          (mainLoop sampleLib 4 sampleOption {| initialSync := false; failCount := 0 |}) tt
  with
  | Exited code => code = 1
  | Returned st' => initialSync st' = false
  end.
Proof.
  exact (proj1 (main_exit_status sampleLib unit unreachable sampleOption)
           4%nat {| initialSync := false; failCount := 0 |} tt eq_refl).
Defined.


(* ------------------------------------------------------------------ *)
(** ** A ref the remote does not list *)

Section MissingRef.

Variable lib : GoLib.
Variable World : Type.
Variable handle : Event -> World -> Answer * World.

(** X11: in steady state, when the local resolution gives an identifier and
    [git ls-remote] succeeds but prints nothing, the pass does not stop with
    "no update required": its next call is the fetch, and when that succeeds
    it goes on to add a worktree for the empty identifier, in the directory
    [rev-] under the root. *)
Theorem sync_rebuilds_when_remote_prints_nothing (o : SyncOption) (w : World) :
  forall found local rest,
    loud (trace_of handle (sync lib o) w) =
      (Stat (path.Join [path.Join [Repo o; Dest o]; ".git"]), (found, None))
        :: (revList lib (Root o) (Rev o), (local, None))
        :: (lsRemote lib (if (Rev o =? "HEAD")%string
                          then "refs/heads/" ++ Branch o
                          else "refs/tags/" ++ Rev o ++ "^{}") (Root o), ("", None))
        :: rest ->
    strings.Trim local strings.nl <> "" ->
    exists fetched rest',
      rest = (fetchEvent lib o, fetched) :: rest'
      /\ (snd fetched = None ->
          exists added rest'', rest' = (worktreeAddEvent lib o "", added) :: rest'').
Proof.
  unfold trace_of.
  destruct (run handle (sync lib o) w) as [[tr out] w'] eqn:Hrun.
  cbn [fst snd].
  intros found local rest Hloud Hlocal.
  unfold sync in Hrun; cbn [run bind call fst snd] in Hrun.
  destruct (handle (Stat _) w) as [[output [err |]] w1].
  { exfalso.
    destruct (run handle _ w1) as [[? ?] ?] in Hrun; injection Hrun as <- _ _.
    cbn [loud filter fst snd is_quiet negb] in Hloud; discriminate Hloud. }
  cbn [os_IsNotExist fst snd] in Hrun.
  unfold getRevs, remoteHashForRef, hashForRev, addWorktreeAndSwap, runCommand in Hrun.
  exec handle lib Hrun.
  all: try match type of Hrun with
         | context [run handle ?p ?w0] =>
             destruct (run handle p w0) as [[? ?] ?]; cbv beta iota zeta in Hrun
         end.
  all: injection Hrun as <- <- <-; cbn [loud filter fst snd is_quiet negb] in Hloud.
  all: unfold revList, lsRemote, execArgs in Hloud.
  all: try discriminate Hloud.
  all: injection Hloud; clear Hloud; intros; subst.
  all: try match goal with
         | H : (strings.Trim ?s strings.nl =? nth 0 (strings.Split "" strings.tab) "")%string
               = true |- _ =>
             exfalso; apply Hlocal; apply String.eqb_eq in H; exact H
         end.
  all: unfold fetchEvent, worktreeAddEvent, worktreeOf, execArgs.
  all: eexists; eexists; split; [ reflexivity | ]; cbn [fst snd]; intros Hok;
    try discriminate Hok; eexists; eexists; reflexivity.
Qed.

End MissingRef.

(** X11, witness: the configured revision is a commit, which the remote
    does not list under [refs/tags]. *)
Lemma sync_rebuilds_when_remote_prints_nothing_witness :
  exists fetched rest',
    skipn 3 (loud (trace_of scripted (sync sampleLib pinnedOption)
                     [ok ""; ok ("9f3c51d0" ++ String strings.nl ""); ok ""; ok ""; ok ""]))
    = (fetchEvent sampleLib pinnedOption, fetched) :: rest'
    /\ (snd fetched = None ->
        exists added rest'', rest' = (worktreeAddEvent sampleLib pinnedOption "", added) :: rest'').
Proof.
  apply (sync_rebuilds_when_remote_prints_nothing sampleLib _ scripted pinnedOption
           [ok ""; ok ("9f3c51d0" ++ String strings.nl ""); ok ""; ok ""; ok ""]
           "" ("9f3c51d0" ++ String strings.nl "")).
  - vm_compute; reflexivity.
  - vm_compute; discriminate.
Defined.


(* ------------------------------------------------------------------ *)
(** ** Start-up *)

Ltac sexec handle H :=
  repeat (cbn [Setup.run Setup.bind Setup.call fst snd
                 Setup.failure Setup.output Setup.mode] in H;
          match type of H with
          | context [handle ?c ?w] => destruct (handle c w) as [[? ? [? |]] ?]
          | context [if ?b then _ else _] => destruct b eqn:?
          end);
  cbn [Setup.run Setup.bind Setup.call fst snd
         Setup.failure Setup.output Setup.mode] in H.

Ltac each_call Hin :=
  cbn [In] in Hin;
  repeat (destruct Hin as [<- | Hin]; [ | ]); [ .. | contradiction ].

Section Credentials.

Variable World : Type.
Variable handle : Setup.Call -> World -> Setup.Reply * World.

(** X12: [setupGitAuth] returns no error exactly when every call it made
    succeeded, the log line, the copy of the credentials to the child's
    standard input and the close of that input left aside: a failure of
    these is not looked at. *)
Theorem setupGitAuth_ignores_the_copy (username password gitURL : string) (w : World) :
  snd (fst (Setup.run handle (Setup.setupGitAuth username password gitURL) w)) = Returned None
  <-> (forall x,
          In x (fst (fst (Setup.run handle (Setup.setupGitAuth username password gitURL) w))) ->
          unchecked (fst x) \/ Setup.failure (snd x) = None).
Proof.
  destruct (Setup.run handle (Setup.setupGitAuth username password gitURL) w)
    as [[tr out] w'] eqn:Hrun.
  cbn [fst snd].
  unfold Setup.setupGitAuth in Hrun.
  cbn [Setup.run Setup.bind Setup.call fst snd] in Hrun.
  destruct (handle (Setup.Infof _ _) w) as [logged w1].
  cbn [Setup.run Setup.bind Setup.call fst snd] in Hrun.
  destruct (handle (Setup.CombinedOutput _ _) w1) as [[? ? [? |]] w2];
    cbn [Setup.run Setup.bind Setup.call fst snd Setup.failure Setup.output] in Hrun.
  2: destruct (handle (Setup.StdinPipe _ _) w2) as [[? ? [? |]] w3];
    cbn [Setup.run Setup.bind Setup.call fst snd Setup.failure Setup.output] in Hrun.
  3: destruct (handle (Setup.Copy _) w3) as [copied w4];
    cbn [Setup.run Setup.bind Setup.call fst snd Setup.failure Setup.output] in Hrun;
    destruct (handle Setup.Close w4) as [closed w5];
    cbn [Setup.run Setup.bind Setup.call fst snd Setup.failure Setup.output] in Hrun;
    destruct (handle (Setup.CombinedOutput _ _) w5) as [[? ? [? |]] w6];
    cbn [Setup.run Setup.bind Setup.call fst snd Setup.failure Setup.output] in Hrun.
  all: injection Hrun as <- <- <-.
  all: split;
    [ intros Hout; try discriminate Hout;
      intros x Hin; each_call Hin; cbn [fst snd unchecked Setup.failure]; tauto
    | intros Hall; try reflexivity; exfalso ].
  all: match goal with
       | Hall : forall x, In x ?l -> _ |- _ =>
           match l with
           | context [(?c, {| Setup.output := ?o; Setup.mode := ?m; Setup.failure := Some ?e |})] =>
               destruct (Hall (c, {| Setup.output := o; Setup.mode := m;
                                     Setup.failure := Some e |})) as [H | H];
               [ cbn [In]; tauto | exact H | discriminate H ]
           end
       end.
Qed.

End Credentials.


Ltac sexec' handle H :=
  repeat (cbn [Setup.run Setup.bind Setup.call fst snd
                 Setup.failure Setup.output Setup.mode] in H;
          match type of H with
          | context [handle (Setup.Stderr ?f ?a) ?w] =>
              destruct (handle (Setup.Stderr f a) w) as [? ?]
          | context [handle Setup.Usage ?w] => destruct (handle Setup.Usage w) as [? ?]
          | context [handle (Setup.Infof ?v ?f) ?w] =>
              destruct (handle (Setup.Infof v f) w) as [? ?]
          | context [handle (Setup.Copy ?d) ?w] => destruct (handle (Setup.Copy d) w) as [? ?]
          | context [handle Setup.Close ?w] => destruct (handle Setup.Close w) as [? ?]
          | context [handle ?c ?w] => destruct (handle c w) as [[? ? [? |]] ?]
          | context [if ?b then _ else _] => destruct b eqn:?
          end);
  cbn [Setup.run Setup.bind Setup.call fst snd
         Setup.failure Setup.output Setup.mode] in H.

Ltac find_call Hin :=
  cbn [In] in Hin;
  repeat (destruct Hin as [Hin' | Hin];
          [ first [ discriminate Hin' | injection Hin' as <- ] | ]);
  [ .. | contradiction ].

Lemma Contains_free (c : ascii) (s : string) :
  Setup.Contains s c = false -> free_of c s.
Proof.
  induction s as [| a s IH]; cbn [Setup.Contains]; intros H.
  - apply free_of_empty.
  - apply orb_false_elim in H; destruct H as [Ha Hs].
    apply free_of_cons; split; [ | exact (IH Hs) ].
    intros ->; rewrite Ascii.eqb_refl in Ha; discriminate.
Qed.

Lemma withDest_same (o : SyncOption) : withDest o (Dest o) = o.
Proof. destruct o; reflexivity. Qed.

Section Startup.

Variable World : Type.
Variable handle : Setup.Call -> World -> Setup.Reply * World.

(** X13: [setupGitSSH] sets [GIT_SSH_COMMAND], and nothing else, only after
    the key file was found with mode 0400 exactly; with any other mode,
    a stricter one included, it returns an error and leaves the environment
    alone. *)
Theorem setupGitSSH_wants_mode_0400 (w : World) :
  let tr := fst (fst (Setup.run handle Setup.setupGitSSH w)) in
  let out := snd (fst (Setup.run handle Setup.setupGitSSH w)) in
  (forall x key value,
      In x tr -> fst x = Setup.Setenv key value ->
      key = "GIT_SSH_COMMAND"
      /\ exists info,
          In (Setup.Stat "/etc/git-secret/ssh", info) tr
          /\ Setup.failure info = None /\ Setup.mode info = 256)
  /\ (forall info,
        In (Setup.Stat "/etc/git-secret/ssh", info) tr ->
        Setup.failure info <> None \/ Setup.mode info <> 256 ->
        (exists err, out = Returned (Some err))
        /\ forall x key value, In x tr -> fst x <> Setup.Setenv key value).
Proof.
  destruct (Setup.run handle Setup.setupGitSSH w) as [[tr out] w'] eqn:Hrun.
  cbn [fst snd].
  unfold Setup.setupGitSSH in Hrun.
  sexec' handle Hrun; injection Hrun as <- <- <-.
  all: split;
    [ intros x key value Hin Hset; each_call Hin; cbn [fst] in Hset;
      try discriminate Hset; injection Hset as <- <-;
      (split; [ reflexivity | ]);
      eexists; (split; [ cbn [In]; right; left; reflexivity | ]);
      cbn [Setup.failure Setup.mode]; (split; [ reflexivity | ]);
      apply Z.eqb_eq; apply negb_false_iff; assumption
    | intros info Hin Hbad; find_call Hin;
      cbn [Setup.failure Setup.mode] in Hbad;
      first [ (split; [ eexists; reflexivity | ]);
              intros x key value Hx; each_call Hx; cbn [fst]; discriminate
            | exfalso; destruct Hbad as [Hbad | Hbad]; [ apply Hbad; reflexivity | ];
              apply Hbad; apply Z.eqb_eq; apply negb_false_iff; assumption ] ].
Qed.

(** X14: [setupFlags] ends the process with status 1 only, and only after
    writing to standard error.  When it returns, the repository locator is
    not empty, the published name holds no slash, and the options are those
    it was given, except for a published name that was empty. *)
Theorem setupFlags_checks_the_options (o : SyncOption) (w : World) :
  match snd (fst (Setup.run handle (Setup.setupFlags o) w)) with
  | Exited code =>
      code = 1
      /\ exists format args r,
          In (Setup.Stderr format args, r) (fst (fst (Setup.run handle (Setup.setupFlags o) w)))
  | Returned o' =>
      Repo o <> ""
      /\ free_of "/" (Dest o')
      /\ o' = withDest o (Dest o')
      /\ (Dest o <> "" -> o' = o)
  end.
Proof.
  destruct (Setup.run handle (Setup.setupFlags o) w) as [[tr out] w'] eqn:Hrun.
  cbn [fst snd].
  unfold Setup.setupFlags, Setup.setupGitAuth, Setup.setupGitSSH in Hrun.
  sexec' handle Hrun; injection Hrun as <- <- <-.
  all: try (split; [ reflexivity | ]; do 3 eexists;
            cbn [In];
            solve [ repeat (first [ left; reflexivity | right ]) ]).
  all: repeat match goal with
         | H : (_ =? _)%string = false |- _ => apply String.eqb_neq in H
         | H : (_ =? _)%string = true |- _ => apply String.eqb_eq in H
         end.
  all: split; [ assumption | ].
  all: split; [ apply Contains_free; assumption | ].
  all: split; [ first [ reflexivity | symmetry; apply withDest_same ] | ].
  all: intros Hdest; first [ reflexivity | contradiction ].
Qed.

End Startup.

(** X13, witness: the key file has mode 0400. *)
Lemma setupGitSSH_wants_mode_0400_witness :
  "GIT_SSH_COMMAND" = "GIT_SSH_COMMAND"
  /\ exists info,
      In (Setup.Stat "/etc/git-secret/ssh", info)
        (fst (fst (Setup.run setupScripted Setup.setupGitSSH [fine; withMode 256; fine])))
      /\ Setup.failure info = None /\ Setup.mode info = 256.
Proof.
  apply (proj1 (setupGitSSH_wants_mode_0400 _ setupScripted [fine; withMode 256; fine])
           (Setup.Setenv "GIT_SSH_COMMAND"
              "ssh -q -o UserKnownHostsFile=/dev/null -o StrictHostKeyChecking=no -i /etc/git-secret/ssh",
            fine)
           "GIT_SSH_COMMAND"
           "ssh -q -o UserKnownHostsFile=/dev/null -o StrictHostKeyChecking=no -i /etc/git-secret/ssh").
  - vm_compute; tauto.
  - reflexivity.
Defined.


(* ------------------------------------------------------------------ *)
(** ** The default published name *)

Lemma Split_app (sep : ascii) (x y : string) :
  strings.Split (x ++ String sep y) sep = (strings.Split x sep ++ strings.Split y sep)%list.
Proof.
  unfold strings.Split.
  induction x as [| a x IH]; cbn.
  - rewrite Ascii.eqb_refl; reflexivity.
  - destruct (Ascii.eqb a sep); cbn in IH |- *; rewrite IH; [ reflexivity | ].
    destruct (Split_first_piece x sep) as (piece & rest & Hx).
    unfold strings.Split in Hx; rewrite Hx; reflexivity.
Qed.

Lemma Split_free (sep : ascii) (s : string) :
  free_of sep s -> strings.Split s sep = [s].
Proof.
  unfold strings.Split.
  induction s as [| a s IH]; intros Hfree; [ reflexivity | ].
  apply free_of_cons in Hfree; destruct Hfree as [Hne Hfree].
  cbn; destruct (Ascii.eqb_spec a sep); [ contradiction | ].
  cbn in IH; rewrite (IH Hfree); reflexivity.
Qed.

Lemma nth_last_app (l : list string) (a : string) :
  nth (List.length (l ++ [a]) - 1) (l ++ [a])%list "" = a.
Proof.
  rewrite length_app; cbn [List.length].
  replace (List.length l + 1 - 1)%nat with (List.length l) by lia.
  rewrite app_nth2, Nat.sub_diag by lia; reflexivity.
Qed.

Lemma ends_with_app (c : ascii) (s1 s2 : string) :
  s2 <> "" -> ends_with c (s1 ++ s2) -> ends_with c s2.
Proof.
  intros Hne; induction s1 as [| a s1 IH]; cbn [append]; [ auto | ].
  intros [[| b t] H]; cbn in H; injection H as Ha Hrest.
  - destruct s1; [ contradiction | discriminate ].
  - apply IH; exists t; exact Hrest.
Qed.

Lemma free_not_ends (c : ascii) (s : string) : free_of c s -> ~ ends_with c s.
Proof. intros Hfree [t H]; exact (Hfree t "" H). Qed.

Lemma TrimRight_keep (c : ascii) (s : string) :
  s <> "" -> ~ ends_with c s -> strings.TrimRight s c = s.
Proof.
  induction s as [| a s IH]; intros Hne Hend; [ contradiction | ].
  cbn [strings.TrimRight].
  destruct s as [| b s].
  - cbn; destruct (Ascii.eqb_spec a c) as [-> | _]; [ | reflexivity ].
    exfalso; apply Hend; exists ""; reflexivity.
  - rewrite IH; [ reflexivity | discriminate | ].
    intros [t H]; apply Hend; exists (String a t); cbn; rewrite H; reflexivity.
Qed.

Lemma TrimRight_only (c : ascii) (s t : string) :
  only c t -> strings.TrimRight (s ++ t) c = strings.TrimRight s c.
Proof.
  assert (Hone : forall s, strings.TrimRight (s ++ String c "") c = strings.TrimRight s c).
  { clear; induction s as [| a s IH]; cbn.
    - rewrite Ascii.eqb_refl; reflexivity.
    - cbn in IH; rewrite IH; reflexivity. }
  revert s; induction t as [| b t IH]; intros s Honly.
  - clear; induction s as [| a s IH]; cbn; [ reflexivity | rewrite IH; reflexivity ].
  - destruct Honly as [-> Honly].
    replace (s ++ String c t) with ((s ++ String c "") ++ t).
    + rewrite (IH _ Honly); apply Hone.
    + clear; induction s as [| a s IH]; cbn; [ reflexivity | rewrite IH; reflexivity ].
Qed.

Lemma TrimLeft_only (c : ascii) (t : string) : only c t -> strings.TrimLeft t c = "".
Proof.
  induction t as [| a t IH]; cbn; [ reflexivity | ].
  intros [-> Honly]; rewrite Ascii.eqb_refl; exact (IH Honly).
Qed.

Lemma TrimLeft_keep (c a : ascii) (s : string) :
  a <> c -> strings.TrimLeft (String a s) c = String a s.
Proof. intros Hne; cbn; destruct (Ascii.eqb_spec a c); [ contradiction | reflexivity ]. Qed.

(** The last element of a path without its surrounding separators. *)
Lemma last_element (c : ascii) (prefix name slashes : string) :
  name <> "" -> free_of c name -> only c slashes ->
  prefix = "" \/ (exists dir, prefix = dir ++ String c "") ->
  let parts := strings.Split (strings.Trim (prefix ++ name ++ slashes) c) c in
  nth (List.length parts - 1) parts "" = name.
Proof.
  intros Hne Hfree Honly Hprefix parts; subst parts.
  destruct name as [| n name]; [ contradiction | ].
  pose proof (proj1 (free_of_cons c n name) Hfree) as [Hn _].
  assert (Hright : forall x,
             strings.TrimRight (x ++ String n name ++ slashes) c = x ++ String n name).
  { intros x.
    replace (x ++ String n name ++ slashes) with ((x ++ String n name) ++ slashes).
    - rewrite (TrimRight_only c _ _ Honly).
      apply TrimRight_keep.
      + destruct x; discriminate.
      + intros Hend; apply ends_with_app in Hend; [ | discriminate ].
        exact (free_not_ends c _ Hfree Hend).
    - clear; induction x as [| a x IH]; cbn; [ reflexivity | rewrite IH; reflexivity ]. }
  assert (Hsplit : forall x,
             (x = "" \/ exists dir, x = dir ++ String c "") ->
             let parts := strings.Split (x ++ String n name) c in
             nth (List.length parts - 1) parts "" = String n name).
  { intros x [-> | [dir ->]]; cbn zeta.
    - cbn [append]; rewrite (Split_free c _ Hfree); reflexivity.
    - replace ((dir ++ String c "") ++ String n name) with (dir ++ String c (String n name)).
      + rewrite Split_app, (Split_free c _ Hfree); apply nth_last_app.
      + clear; induction dir as [| a dir IH]; cbn; [ reflexivity | rewrite IH; reflexivity ]. }
  assert (Hleft : exists x,
             (x = "" \/ exists dir, x = dir ++ String c "")
             /\ strings.TrimLeft (prefix ++ String n name ++ slashes) c
                = x ++ String n name ++ slashes).
  { destruct Hprefix as [-> | [dir ->]].
    - exists ""; split; [ left; reflexivity | ].
      cbn [append]; apply TrimLeft_keep; exact Hn.
    - induction dir as [| a dir IH].
      + exists ""; split; [ left; reflexivity | ].
        cbn [append strings.TrimLeft]; rewrite Ascii.eqb_refl.
        apply TrimLeft_keep; exact Hn.
      + destruct (Ascii.eqb_spec a c) as [-> | Hac].
        * destruct IH as (x & Hx & Heq); exists x; split; [ exact Hx | ].
          cbn [append strings.TrimLeft]; rewrite Ascii.eqb_refl; exact Heq.
        * exists (String a dir ++ String c ""); split; [ right; exists (String a dir); reflexivity | ].
          cbn [append]; apply TrimLeft_keep; exact Hac. }
  destruct Hleft as (x & Hx & Hleft).
  unfold strings.Trim; rewrite Hleft, Hright.
  exact (Hsplit x Hx).
Qed.

Section DefaultDest.

Variable World : Type.
Variable handle : Setup.Call -> World -> Setup.Reply * World.

Lemma setupFlags_default (o o' : SyncOption) (w : World) :
  Dest o = "" ->
  snd (fst (Setup.run handle (Setup.setupFlags o) w)) = Returned o' ->
  let parts := strings.Split (strings.Trim (Repo o) "/"%char) "/"%char in
  Dest o' = nth (List.length parts - 1) parts "".
Proof.
  destruct (Setup.run handle (Setup.setupFlags o) w) as [[tr out] w'] eqn:Hrun.
  cbn [fst snd].
  unfold Setup.setupFlags, Setup.setupGitAuth, Setup.setupGitSSH in Hrun.
  intros Hdest; rewrite Hdest in Hrun; cbn [String.eqb] in Hrun.
  sexec' handle Hrun; injection Hrun as <- <- <-.
  all: intros Hout; try discriminate Hout; injection Hout as <-; reflexivity.
Qed.

(** X15: when no published name is given and [setupFlags] returns, the name
    it has chosen is the last element of the repository locator, slashes at
    the end of the locator left aside; for a locator made of slashes only
    the name stays empty. *)
Theorem setupFlags_default_dest (o o' : SyncOption) (w : World) :
  Dest o = "" ->
  snd (fst (Setup.run handle (Setup.setupFlags o) w)) = Returned o' ->
  (forall prefix name slashes,
      name <> "" -> free_of "/" name -> only "/" slashes ->
      prefix = "" \/ (exists dir, prefix = dir ++ "/") ->
      Repo o = prefix ++ name ++ slashes ->
      Dest o' = name)
  /\ (only "/" (Repo o) -> Dest o' = "").
Proof.
  intros Hdest Hout.
  pose proof (setupFlags_default o o' w Hdest Hout) as Hdefault; cbn zeta in Hdefault.
  split.
  - intros prefix name slashes Hne Hfree Honly Hprefix Hrepo.
    rewrite Hdefault, Hrepo.
    exact (last_element "/" prefix name slashes Hne Hfree Honly Hprefix).
  - intros Honly; rewrite Hdefault.
    unfold strings.Trim; rewrite (TrimLeft_only _ _ Honly); reflexivity.
Qed.

End DefaultDest.

(** X15, witness: the locator of [sampleOption], no published name given. *)
Lemma setupFlags_default_dest_witness :
  exists o',
    snd (fst (Setup.run setupScripted (Setup.setupFlags (withDest sampleOption "")) [fine]))
    = Returned o'
    /\ Dest o' = "r.git".
Proof.
  eexists; split; [ vm_compute; reflexivity | ].
  refine (proj1 (setupFlags_default_dest _ setupScripted (withDest sampleOption "") _ [fine]
                   eq_refl _)
            "https://example.com/" "r.git" "" _ _ I _ eq_refl).
  - vm_compute; reflexivity.
  - discriminate.
  - repeat (apply free_of_cons; split; [ discriminate | ]); apply free_of_empty.
  - right; exists "https://example.com"; reflexivity.
Defined.

